(** * Collaborative-filtering recommender ([src/models/cf.py])

    A shallow embedding of [RecommendationSystem], [evaluate_model] and
    [filter_seen_items], together with the pieces of scikit-learn, SciPy,
    NumPy and Python they are written against, and the properties the
    specification states about them.

    Conventions.
    - A raw identifier read by pandas is either an integer or a string
      ([label]); a column holds one kind.
    - Ratings are exact integers ([Z]): the star ratings of the data set are
      small whole numbers, on which the floating-point sums of the code are
      exact.  Where a property depends on that exactness it is stated for
      whole-number ratings only; the accumulation of fractional ratings in
      binary64 is modelled beside it ([accumulate_float]).
    - A Python call that may raise returns a [pyresult].
    - The factorization library (solver, top-N query, ranking metrics) is
      a parameter ([Library]); nothing is assumed about what it computes.
    - [recommend] and [evaluate_model] are modelled on a fitted object, the
      result of [fit]. *)

From Stdlib Require Import ZArith QArith Structures.OrdersEx Floats.
From stdpp Require Import base option list sorting gmap strings.

Local Open Scope Z_scope.
Local Open Scope nat_scope.

(** ** Python results *)

Inductive exn : Type :=
  | ValueError
  | IndexError
  | TypeError
  | RuntimeError.

Inductive pyresult (A : Type) : Type :=
  | Ok (a : A)
  | Raise (e : exn).
Arguments Ok {A} a.
Arguments Raise {A} e.

Global Instance pyresult_bind : MBind pyresult := λ A B k r,
  match r with
  | Ok a => k a
  | Raise e => Raise e
  end.

Global Instance pyresult_ret : MRet pyresult := λ A a, Ok a.

Fixpoint py_mapM {A B} (f : A → pyresult B) (l : list A)
  : pyresult (list B) :=
  match l with
  | [] => Ok []
  | x :: l' => y ← f x; ys ← py_mapM f l'; Ok (y :: ys)
  end.

Global Instance exn_eq_dec : EqDecision exn.
Proof. solve_decision. Defined.

(** ** Raw identifiers *)

Inductive label : Type :=
  | LInt (z : Z)
  | LStr (s : string).

Global Instance label_eq_dec : EqDecision label.
Proof. solve_decision. Defined.

Definition is_str (v : label) : bool :=
  match v with LStr _ => true | LInt _ => false end.

(** Order used by [np.unique] and [sorted] on one kind of value: numeric
    order on integers, code-point order on strings.  Values of two kinds
    never meet in a sort ([homogeneous] below); the two mixed cases only
    make the comparison total. *)
Definition label_compare (a b : label) : comparison :=
  match a, b with
  | LInt x, LInt y => Z.compare x y
  | LStr x, LStr y => String_as_OT.compare x y
  | LInt _, LStr _ => Lt
  | LStr _, LInt _ => Gt
  end.

Definition label_lt (a b : label) : Prop := label_compare a b = Lt.

Global Instance label_lt_dec a b : Decision (label_lt a b).
Proof. unfold label_lt. solve_decision. Defined.

(** A column is usable by the encoder when its values are uniformly
    numbers or uniformly strings. *)
Definition homogeneous (l : list label) : bool :=
  forallb is_str l || forallb (λ v, negb (is_str v)) l.

(** ** [sorted(set(values))] / [np.unique(values)] *)

Fixpoint unique_insert (x : label) (l : list label) : list label :=
  match l with
  | [] => [x]
  | y :: l' =>
      match label_compare x y with
      | Lt => x :: y :: l'
      | Eq => y :: l'
      | Gt => y :: unique_insert x l'
      end
  end.

Definition np_unique (l : list label) : list label :=
  foldr unique_insert [] l.

(** ** [sklearn.preprocessing.LabelEncoder] *)

Record LabelEncoder : Type := MkLabelEncoder { classes_ : list label }.

Fixpoint index_of (v : label) (l : list label) : option nat :=
  match l with
  | [] => None
  | c :: l' => if decide (c = v) then Some 0 else S <$> index_of v l'
  end.

Module LabelEncoder.

(** [fit(y)]: [classes_] becomes the sorted distinct values; a column of
    mixed kinds is refused with [TypeError]. *)
Definition fit (y : list label) : pyresult LabelEncoder :=
  if homogeneous y then Ok (MkLabelEncoder (np_unique y))
  else Raise TypeError.

(** [transform(y)]: the position of each value in [classes_];
    [ValueError] on a value that was not seen by [fit]. *)
Definition encode1 (enc : LabelEncoder) (v : label) : pyresult nat :=
  match index_of v (classes_ enc) with
  | Some i => Ok i
  | None => Raise ValueError
  end.

Definition transform (enc : LabelEncoder) (y : list label)
  : pyresult (list nat) :=
  py_mapM (encode1 enc) y.

Definition fit_transform (y : list label)
  : pyresult (LabelEncoder * list nat) :=
  enc ← fit y; codes ← transform enc y; Ok (enc, codes).

(** [inverse_transform(y)]: [classes_[i]] for each index; [ValueError]
    on an index outside [0, len(classes_))]. *)
Definition decode1 (enc : LabelEncoder) (i : nat) : pyresult label :=
  match classes_ enc !! i with
  | Some v => Ok v
  | None => Raise ValueError
  end.

Definition inverse_transform (enc : LabelEncoder) (y : list nat)
  : pyresult (list label) :=
  py_mapM (decode1 enc) y.

End LabelEncoder.

(** Order of first appearance, as the specification words the encoder:
    the distinct values of a sequence, each kept at its first occurrence. *)
Fixpoint first_seen (seen : list label) (l : list label) : list label :=
  match l with
  | [] => []
  | x :: l' =>
      if decide (x ∈ seen) then first_seen seen l'
      else x :: first_seen (x :: seen) l'
  end.

Definition first_seen_index (l : list label) (v : label) : option nat :=
  index_of v (first_seen [] l).

(** Number of distinct values of [l] that are smaller than [v]. *)
Definition rank_of (v : label) (l : list label) : nat :=
  length (filter (λ c, label_lt c v) (remove_dups l)).


(** ** Python built-ins used by the recommender *)

(** [enumerate(l)] *)
Definition py_enumerate {A} (l : list A) : list (nat * A) :=
  zip (seq 0 (length l)) l.

(** [sorted(l, key=key)]: a stable sort, ascending in the key.  An element
    is placed before the first element of the sorted rest whose key is not
    smaller, so elements of equal key keep their input order. *)
Fixpoint sorted_insert {A} (key : A → Z) (x : A) (l : list A) : list A :=
  match l with
  | [] => [x]
  | y :: l' =>
      if decide (key x ≤ key y)%Z then x :: y :: l'
      else y :: sorted_insert key x l'
  end.

Definition py_sorted {A} (key : A → Z) (l : list A) : list A :=
  foldr (sorted_insert key) [] l.

(** [l[:n]]: the first [n] elements, or all but the last [-n] when [n] is
    negative. *)
Definition py_slice_to {A} (n : Z) (l : list A) : list A :=
  if decide (0 ≤ n)%Z then take (Z.to_nat n) l
  else take (length l - Z.to_nat (- n)) l.

(** [xs[0]] *)
Definition py_first {A} (l : list A) : pyresult A :=
  match l with
  | x :: _ => Ok x
  | [] => Raise IndexError
  end.

Definition sum_Z (l : list Z) : Z := foldr Z.add 0%Z l.

(** ** [scipy.sparse.csr_matrix] *)

(** A sparse matrix: its shape and its stored entries. *)
Record csr_matrix : Type := MkCsr {
  shape : nat * nat;
  entries : gmap (nat * nat) Z
}.

Definition triple : Type := nat * nat * Z.

(** One step of the single pass that builds the matrix: the rating of a
    row is added to what its cell already holds. *)
Definition accumulate (m : gmap (nat * nat) Z) (t : triple)
  : gmap (nat * nat) Z :=
  <[ t.1 := (default 0 (m !! t.1) + t.2)%Z ]> m.

(** [csr_matrix((data, (row, col)))] on aligned triples [(row, col, data)]:
    the shape is inferred from the largest index on each axis, cells that
    occur several times are summed, and an empty input is refused (no
    shape can be inferred). *)
Definition csr_of_triples (l : list triple) : pyresult csr_matrix :=
  match l with
  | [] => Raise ValueError
  | _ :: _ =>
      Ok (MkCsr (S (max_list (l.*1.*1)), S (max_list (l.*1.*2)))
                (foldl accumulate ∅ l))
  end.

Definition csr_matrix_coo (data : list Z) (row col : list nat)
  : pyresult csr_matrix :=
  if decide (length row = length data ∧ length col = length data)
  then csr_of_triples (zip (zip row col) data)
  else Raise ValueError.

(** The value of cell [(i, j)] (zero where nothing is stored). *)
Definition entry (M : csr_matrix) (i j : nat) : Z :=
  default 0%Z (entries M !! (i, j)).

(** [M[i, j]] *)
Definition csr_get (M : csr_matrix) (i j : nat) : pyresult Z :=
  if decide (i < (shape M).1 ∧ j < (shape M).2) then Ok (entry M i j)
  else Raise IndexError.

(** [np.asarray(M.sum(axis=1)).flatten()]: one sum per row. *)
Definition row_sum (M : csr_matrix) (i : nat) : Z :=
  sum_Z (entry M i <$> seq 0 (shape M).2).

Definition csr_row_sums (M : csr_matrix) : list Z :=
  row_sum M <$> seq 0 (shape M).1.

(** [M[i].indices]: the columns stored in row [i]. *)
Definition csr_row_indices (M : csr_matrix) (i : nat) : pyresult (list nat) :=
  if decide (i < (shape M).1)
  then Ok (filter (λ j, is_Some (entries M !! (i, j))) (seq 0 (shape M).2))
  else Raise IndexError.

(** [M[i]]: row [i] as a matrix of one row. *)
Definition csr_getrow (M : csr_matrix) (i : nat) : pyresult csr_matrix :=
  if decide (i < (shape M).1)
  then Ok (MkCsr (1, (shape M).2)
             (foldr (λ j acc,
                       match entries M !! (i, j) with
                       | Some r => <[(0, j) := r]> acc
                       | None => acc
                       end) ∅ (seq 0 (shape M).2)))
  else Raise IndexError.

(** ** The factorization library *)

(** Constructor arguments of the engine. *)
Record ALSParams : Type := MkALS {
  factors : nat;
  regularization : Q;
  alpha : Q;
  iterations : nat;
  random_state : option Z
}.

(** [AlternatingLeastSquares(factors=, regularization=, alpha=,
    iterations=, random_state=None)] *)
Definition AlternatingLeastSquares (factors : nat) (regularization alpha : Q)
    (iterations : nat) (random_state : option Z) : ALSParams :=
  MkALS factors regularization alpha iterations random_state.

(** The seed the solver starts from: [random_state] when one was given,
    otherwise whatever the ambient generator supplies at the call. *)
Definition initial_seed (p : ALSParams) (ambient : Z) : Z :=
  default ambient (random_state p).

(** The numeric library is not part of the repository.  Its solver, its
    top-N query and its three ranking metrics are taken as given: any
    functions of these signatures.  [als_recommend st userid user_items n
    filter_already_liked_items] answers a list of (item index, score)
    pairs or raises. *)
Record Library : Type := MkLibrary {
  als_state : Type;
  score : Type;
  factor_matrix : Type;
  als_fit : ALSParams → Z → csr_matrix → pyresult als_state;
  als_item_factors : als_state → factor_matrix;
  als_recommend :
    als_state → nat → csr_matrix → Z → bool →
    pyresult (list (nat * score));
  precision_at_k :
    csr_matrix → list (list Z) → list nat → Z → pyresult Q;
  mean_average_precision_at_k :
    csr_matrix → list (list Z) → list nat → Z → pyresult Q;
  ndcg_at_k :
    csr_matrix → list (list Z) → list nat → Z → pyresult Q
}.

(** ** The interaction table *)

(** One row of the table, with the columns the recommender reads (the
    timestamp column is only used by the loader). *)
Record Interaction : Type := MkInteraction {
  user_id : label;
  parent_asin : label;
  rating : Z
}.

Definition DataFrame : Type := list Interaction.

(** [Series.unique()]: distinct values in order of first appearance. *)
Definition pd_unique (l : list label) : list label := first_seen [] l.

(** ** [class RecommendationSystem] *)

(** The object as [__init__] leaves it: the configured engine; the two
    encoders are still empty and no matrix is held. *)
Record NewRecommendationSystem : Type := MkNew { new_model : ALSParams }.

(** The object after [fit]. *)
Record RecommendationSystem (L : Library) : Type := MkRS {
  model_params : ALSParams;
  model : als_state L;
  user_encoder : LabelEncoder;
  item_encoder : LabelEncoder;
  item_user_data : csr_matrix;
  item_factors : factor_matrix L
}.
Arguments MkRS {L}.
Arguments model_params {L}.
Arguments model {L}.
Arguments user_encoder {L}.
Arguments item_encoder {L}.
Arguments item_user_data {L}.
Arguments item_factors {L}.

(** The evaluation report: the three metric values. *)
Record EvaluationReport : Type := MkReport {
  report_precision : Q;
  report_map : Q;
  report_ndcg : Q
}.

Module RecommendationSystem.
Section WithLibrary.
Context (L : Library).

(** [__init__(factors, regularization, alpha, iterations)]: the engine is
    built from these four arguments and nothing else. *)
Definition init (factors : nat) (regularization alpha : Q)
    (iterations : nat) : NewRecommendationSystem :=
  MkNew (AlternatingLeastSquares factors regularization alpha iterations
           None).

(** [RecommendationSystem()] with the defaults of the signature. *)
Definition init_default : NewRecommendationSystem :=
  init 100 (1 # 100)%Q 1%Q 50.

(** [fit(df)].  [ambient] is the state of the ambient random generator
    when the solver starts. *)
Definition fit (self : NewRecommendationSystem) (ambient : Z)
    (df : DataFrame) : pyresult (RecommendationSystem L) :=
  ue ← LabelEncoder.fit_transform (user_id <$> df);
  ie ← LabelEncoder.fit_transform (parent_asin <$> df);
  let ratings := rating <$> df in
  M ← csr_matrix_coo ratings ie.2 ue.2;
  st ← als_fit L (new_model self)
         (initial_seed (new_model self) ambient) M;
  Ok (MkRS (new_model self) st ue.1 ie.1 M (als_item_factors L st)).

(** The body of the [try]: encode the user, ask the engine (the liked
    filter is left at the engine's default, on).  Only the item of each
    returned pair is used afterwards. *)
Definition try_block (self : RecommendationSystem L) (uid : label)
    (n : Z) : pyresult (list nat) :=
  idxs ← LabelEncoder.transform (user_encoder self) [uid];
  user_idx ← py_first idxs;
  recs ← als_recommend L (model self) user_idx (item_user_data self)
           n true;
  Ok (recs.*1).

(** The body of the [except ValueError]: most popular items first. *)
Definition popularity_fallback (self : RecommendationSystem L) (n : Z)
  : list nat :=
  let item_popularity := csr_row_sums (item_user_data self) in
  (py_slice_to n
     (py_sorted (λ x : nat * Z, (- x.2)%Z)
        (py_enumerate item_popularity))).*1.

(** [try: ... except ValueError: ...] *)
Definition recommendations (self : RecommendationSystem L) (uid : label)
    (n : Z) : pyresult (list nat) :=
  match try_block self uid n with
  | Ok recs => Ok recs
  | Raise ValueError => Ok (popularity_fallback self n)
  | Raise e => Raise e
  end.

(** Whether the call goes through the [except] branch. *)
Definition takes_fallback (self : RecommendationSystem L) (uid : label)
    (n : Z) : bool :=
  match try_block self uid n with
  | Raise ValueError => true
  | _ => false
  end.

(** [inverse_transform([item])[0]] *)
Definition decode_item (self : RecommendationSystem L) (item : nat)
  : pyresult label :=
  decoded ← LabelEncoder.inverse_transform (item_encoder self) [item];
  py_first decoded.

(** [recommend(user_id, n)] *)
Definition recommend (self : RecommendationSystem L) (uid : label)
    (n : Z) : pyresult (list label) :=
  recs ← recommendations self uid n;
  py_mapM (decode_item self) recs.

End WithLibrary.
End RecommendationSystem.

Section Pipeline.
Context (L : Library).

(** [train_model(train_df)] *)
Definition train_model (ambient : Z) (train_df : DataFrame)
  : pyresult (RecommendationSystem L) :=
  RecommendationSystem.fit L RecommendationSystem.init_default ambient
    train_df.

(** The matrix [evaluate_model] builds from the held-out table. *)
Definition test_user_item (m : RecommendationSystem L)
    (test_df : DataFrame) : pyresult csr_matrix :=
  users ← LabelEncoder.transform (user_encoder m) (user_id <$> test_df);
  items ← LabelEncoder.transform (item_encoder m)
            (parent_asin <$> test_df);
  csr_matrix_coo (rating <$> test_df) users items.

(** One turn of the loop that collects the recommendation lists. *)
Definition recommend_for_eval (m : RecommendationSystem L) (k : Z)
    (uid : label) : pyresult (list nat) :=
  idxs ← LabelEncoder.transform (user_encoder m) [uid];
  user_idx ← py_first idxs;
  user_items ← csr_getrow (item_user_data m) user_idx;
  recs ← als_recommend L (model m) user_idx user_items k false;
  Ok (recs.*1).

(** [transform([item])[0] if item in classes_ else -1]: the recommended
    index is looked up as if it were a raw item identifier. *)
Definition to_item_id (m : RecommendationSystem L) (item : nat)
  : pyresult Z :=
  if decide (LInt (Z.of_nat item) ∈ classes_ (item_encoder m)) then
    idxs ← LabelEncoder.transform (item_encoder m)
             [LInt (Z.of_nat item)];
    i ← py_first idxs;
    Ok (Z.of_nat i)
  else Ok (-1)%Z.

(** Everything [evaluate_model] computes before the metric calls: the
    three arguments handed to each metric function. *)
Definition evaluate_inputs (m : RecommendationSystem L)
    (test_df : DataFrame) (k : Z)
  : pyresult (csr_matrix * list (list Z) * list nat) :=
  T ← test_user_item m test_df;
  let user_ids := pd_unique (user_id <$> test_df) in
  user_idxs ← LabelEncoder.transform (user_encoder m) user_ids;
  all_recommendations ← py_mapM (recommend_for_eval m k) user_ids;
  all_recommendations_ids ←
    py_mapM (py_mapM (to_item_id m)) all_recommendations;
  Ok (T, all_recommendations_ids, user_idxs).

(** [evaluate_model(model, test_df, k)] *)
Definition evaluate_model (m : RecommendationSystem L)
    (test_df : DataFrame) (k : Z) : pyresult EvaluationReport :=
  args ← evaluate_inputs m test_df k;
  precision ← precision_at_k L args.1.1 args.1.2 args.2 k;
  map_score ← mean_average_precision_at_k L args.1.1 args.1.2 args.2 k;
  ndcg ← ndcg_at_k L args.1.1 args.1.2 args.2 k;
  Ok (MkReport precision map_score ndcg).

End Pipeline.

(** [filter_seen_items(train_df, test_df)] *)
Definition filter_seen_items (train_df test_df : DataFrame) : DataFrame :=
  let seen_items := parent_asin <$> train_df in
  filter (λ r, parent_asin r ∈ seen_items) test_df.

(** The sum of the ratings of all triples of [l] whose pair is [(i, j)], as
    the specification words the content of a cell. *)
Definition pair_sum (l : list triple) (i j : nat) : Z :=
  sum_Z ((λ t : triple, t.2) <$> filter (λ t : triple, t.1 = (i, j)) l).

(** Ranking order of the popularity fallback, as the specification words
    it: more total weight first, the smaller item index first among equal
    weights. *)
Definition more_popular (M : csr_matrix) (i j : nat) : Prop :=
  (row_sum M j < row_sum M i)%Z ∨ (row_sum M i = row_sum M j ∧ i < j).

(** The same order on the (index, weight) pairs that are sorted. *)
Definition ranks_before (x y : nat * Z) : Prop :=
  (y.2 < x.2)%Z ∨ (x.2 = y.2 ∧ x.1 < y.1).

(** ** Stand-ins for the numeric library, used in examples

    [canned_library answer]: a library whose solver always succeeds and
    whose top-N query gives the same [answer] to every call. *)
Definition canned_library (answer : pyresult (list nat)) : Library :=
  {| als_state := unit;
     score := unit;
     factor_matrix := unit;
     als_fit := λ _ _ _, Ok ();
     als_item_factors := λ _, ();
     als_recommend := λ _ _ _ _ _,
       match answer with
       | Ok recs => Ok ((λ i : nat, (i, ())) <$> recs)
       | Raise e => Raise e
       end;
     precision_at_k := λ _ _ _ _, Ok 0%Q;
     mean_average_precision_at_k := λ _ _ _ _, Ok 0%Q;
     ndcg_at_k := λ _ _ _ _, Ok 0%Q |}.

(** The full popularity ranking, before truncation: the item indices in
    the order the fallback sorts them. *)
Definition popularity_ranking (M : csr_matrix) : list nat :=
  (py_sorted (λ x : nat * Z, (- x.2)%Z) (py_enumerate (csr_row_sums M))).*1.

(** [seeded_library]: a library whose solver result is the seed it starts
    from, the least a solver with random initial factors depends on. *)
Definition seeded_library : Library :=
  {| als_state := Z;
     score := unit;
     factor_matrix := Z;
     als_fit := λ _ seed _, Ok seed;
     als_item_factors := λ st, st;
     als_recommend := λ _ _ _ _ _, Ok [];
     precision_at_k := λ _ _ _ _, Ok 0%Q;
     mean_average_precision_at_k := λ _ _ _ _, Ok 0%Q;
     ndcg_at_k := λ _ _ _ _, Ok 0%Q |}.

(** ** A reference engine

    The documented contract of the engine's top-N query in its
    list-of-pairs form, with exact integer factors: the score of an item
    is the dot product of its factor vector with the user's; with the liked
    filter on, the columns stored in row [userid] of [user_items] are taken
    as the items the user liked and are left out; the [N] best remaining
    items are answered, best first. *)
Record Factors : Type := MkFactors {
  user_factors : list (list Z);
  item_factors_ : list (list Z)
}.

Definition dot (a b : list Z) : Z := sum_Z (zip_with Z.mul a b).

Definition reference_recommend (F : Factors) (userid : nat)
    (user_items : csr_matrix) (N : Z) (filter_already_liked_items : bool)
  : pyresult (list (nat * Z)) :=
  if decide (N < 0)%Z then Raise ValueError else
  user ← match user_factors F !! userid with
         | Some u => Ok u
         | None => Raise IndexError
         end;
  liked ← (if filter_already_liked_items
           then csr_row_indices user_items userid else Ok []);
  let scores := dot user <$> item_factors_ F in
  let best := py_sorted (λ x : nat * Z, (- x.2)%Z) (py_enumerate scores) in
  Ok (take (Z.to_nat N) (filter (λ rec : nat * Z, rec.1 ∉ liked) best)).

Definition reference_library (F : Factors) : Library :=
  {| als_state := Factors;
     score := Z;
     factor_matrix := list (list Z);
     als_fit := λ _ _ _, Ok F;
     als_item_factors := item_factors_;
     als_recommend := reference_recommend;
     precision_at_k := λ _ _ _ _, Ok 0%Q;
     mean_average_precision_at_k := λ _ _ _ _, Ok 0%Q;
     ndcg_at_k := λ _ _ _ _, Ok 0%Q |}.

(** ** Reference points taken from the specification *)

(** The held-out matrix in the orientation of training, rows for items and
    columns for users, as the specification words the evaluator. *)
Definition heldout_item_user {L} (m : RecommendationSystem L)
    (test_df : DataFrame) : pyresult csr_matrix :=
  users ← LabelEncoder.transform (user_encoder m) (user_id <$> test_df);
  items ← LabelEncoder.transform (item_encoder m) (parent_asin <$> test_df);
  csr_matrix_coo (rating <$> test_df) items users.

(** What [to_item_id] answers for a recommended index: the position of
    the raw identifier equal to that integer, or -1 when there is none. *)
Definition item_id_of (classes : list label) (item : nat) : Z :=
  match index_of (LInt (Z.of_nat item)) classes with
  | Some i => Z.of_nat i
  | None => (-1)%Z
  end.

(** The item indices a user interacted with in a table, under the
    encoders of a fitted system. *)
Definition interacted_items {L} (m : RecommendationSystem L)
    (df : DataFrame) (uid : label) : list nat :=
  omap (λ r, if decide (user_id r = uid)
             then index_of (parent_asin r) (classes_ (item_encoder m))
             else None) df.

(** Example tables. *)
Definition two_items_one_user : DataFrame :=
  [MkInteraction (LStr "u1") (LStr "a") 5;
   MkInteraction (LStr "u1") (LStr "b") 3].

Definition scenario_train : DataFrame :=
  [MkInteraction (LStr "u1") (LStr "i1") 5;
   MkInteraction (LStr "u1") (LStr "i2") 3;
   MkInteraction (LStr "u2") (LStr "i1") 4;
   MkInteraction (LStr "u3") (LStr "i3") 2].

Definition integer_items : DataFrame :=
  [MkInteraction (LStr "u1") (LInt 1) 5;
   MkInteraction (LStr "u1") (LInt 5) 3].

Definition scenario_heldout : DataFrame :=
  [MkInteraction (LStr "u2") (LStr "i3") 4].

(** Total accumulated interaction weight of an item in a table: the sum
    of the ratings of its rows. *)
Definition total_weight (df : DataFrame) (it : label) : Z :=
  sum_Z (rating <$> filter (λ r, parent_asin r = it) df).

(** ** Further reference points *)

(** Total rating of one (item, user) pair in a table. *)
Definition pair_weight (df : DataFrame) (it u : label) : Z :=
  sum_Z (rating <$> filter (λ r, parent_asin r = it ∧ user_id r = u) df).

(** Some row of the table is of user [u] for item [it]. *)
Definition rated (df : DataFrame) (it u : label) : Prop :=
  ∃ r, r ∈ df ∧ parent_asin r = it ∧ user_id r = u.

(** The code [transform] gives a value of the table of classes. *)
Definition code_of (classes : list label) (v : label) : nat :=
  default 0 (index_of v classes).

(** The (item index, user index, rating) triples [fit] hands to
    [csr_matrix]: one per row of the table, under the encoders fitted on
    that same table. *)
Definition fit_triples (df : DataFrame) : list triple :=
  (λ r, (code_of (np_unique (parent_asin <$> df)) (parent_asin r),
         code_of (np_unique (user_id <$> df)) (user_id r),
         rating r)) <$> df.

(** ** [main]

    The pipeline of [main] after the three tables are loaded: train on the
    training table, keep the first 1000 rows of the validation and of the
    test table, drop the rows whose item was not seen in training, and
    evaluate on each with the default cutoff.  The result is the pair of
    reports that [main] prints. *)
Definition main_run (L : Library) (ambient : Z)
    (train_df valid_df test_df : DataFrame)
  : pyresult (EvaluationReport * EvaluationReport) :=
  model ← train_model L ambient train_df;
  let valid_df_1000 := filter_seen_items train_df (take 1000 valid_df) in
  let test_df_1000 := filter_seen_items train_df (take 1000 test_df) in
  validation_metrics ← evaluate_model L model valid_df_1000 10;
  test_metrics ← evaluate_model L model test_df_1000 10;
  Ok (validation_metrics, test_metrics).

(** More example tables. *)
Definition two_users_one_item : DataFrame :=
  [MkInteraction (LStr "u1") (LStr "a") 5;
   MkInteraction (LStr "u2") (LStr "a") 3].

Definition heldout_mixed : DataFrame :=
  [MkInteraction (LStr "u1") (LStr "i2") 4;
   MkInteraction (LStr "u2") (LStr "zz") 1].

(** ** Fractional ratings: the accumulation in binary64

    A rating column with fractional values is a column of binary64
    numbers.  The cell of a pair is then the floating-point sum of its
    ratings, added one after the other in the order of the rows. *)
Definition float_triple : Type := nat * nat * float.

Definition accumulate_float (m : gmap (nat * nat) float) (t : float_triple)
  : gmap (nat * nat) float :=
  <[ t.1 := (default 0 (m !! t.1) + t.2)%float ]> m.

Definition csr_of_float_triples (l : list float_triple)
  : pyresult ((nat * nat) * gmap (nat * nat) float) :=
  match l with
  | [] => Raise ValueError
  | _ :: _ =>
      Ok ((S (max_list (l.*1.*1)), S (max_list (l.*1.*2))),
          foldl accumulate_float ∅ l)
  end.

(** The value of cell [(i, j)] of the matrix built from [l]. *)
Definition float_cell (l : list float_triple) (i j : nat) : float :=
  match csr_of_float_triples l with
  | Ok M => default 0%float (M.2 !! (i, j))
  | Raise _ => 0%float
  end.

(** Three ratings 0.1, 0.2 and 0.3 of one pair (the binary64 numbers
    nearest to them), and the same rows in reverse order. *)
Definition tenths : list float_triple :=
  [(0, 0, 0x1.999999999999ap-4%float);
   (0, 0, 0x1.999999999999ap-3%float);
   (0, 0, 0x1.3333333333333p-2%float)].

Definition tenths_reversed : list float_triple := reverse tenths.
(** ** Facts about the order *)

Lemma label_compare_spec a b :
  CompSpec eq label_lt a b (label_compare a b).
Proof.
  unfold label_lt. destruct a as [x|x], b as [y|y]; simpl.
  - destruct (Z.compare_spec x y); constructor; subst; auto;
      by apply Z.compare_lt_iff.
  - by constructor.
  - by constructor.
  - destruct (String_as_OT.compare_spec x y) as [->|H|H]; constructor; auto.
Qed.

Lemma label_lt_irrefl a : ¬ label_lt a a.
Proof.
  unfold label_lt. destruct a as [x|x]; simpl.
  - rewrite Z.compare_refl. discriminate.
  - intros H. by apply (StrictOrder_Irreflexive (R := String_as_OT.lt) x).
Qed.

Lemma label_lt_trans a b c : label_lt a b → label_lt b c → label_lt a c.
Proof.
  unfold label_lt. destruct a as [x|x], b as [y|y], c as [z|z]; simpl;
    try done.
  - rewrite !Z.compare_lt_iff. lia.
  - intros H1 H2.
    exact (StrictOrder_Transitive (R := String_as_OT.lt) x y z H1 H2).
Qed.

Global Instance label_lt_strict : StrictOrder label_lt.
Proof.
  split.
  - intros a. apply label_lt_irrefl.
  - intros a b c. apply label_lt_trans.
Qed.

Lemma label_compare_refl a : label_compare a a = Eq.
Proof.
  destruct (label_compare_spec a a) as [|H|H]; auto;
    by apply label_lt_irrefl in H.
Qed.

Lemma label_lt_asym a b : label_lt a b → ¬ label_lt b a.
Proof.
  intros H1 H2. exact (label_lt_irrefl a (label_lt_trans _ _ _ H1 H2)).
Qed.

(** ** Facts about [np_unique] and [index_of] *)

Lemma elem_of_unique_insert v x l :
  v ∈ unique_insert x l ↔ v = x ∨ v ∈ l.
Proof.
  induction l as [|y l IH]; simpl.
  - rewrite list_elem_of_singleton, elem_of_nil. tauto.
  - destruct (label_compare_spec x y) as [->|H|H].
    + rewrite !elem_of_cons. tauto.
    + rewrite !elem_of_cons. tauto.
    + rewrite !elem_of_cons, IH. tauto.
Qed.

Lemma unique_insert_sorted x l :
  StronglySorted label_lt l → StronglySorted label_lt (unique_insert x l).
Proof.
  induction 1 as [|y l Hs IH Hy]; simpl.
  - repeat constructor.
  - destruct (label_compare_spec x y) as [->|H|H].
    + by constructor.
    + constructor; [by constructor|].
      constructor; [done|].
      eapply Forall_impl; [exact Hy|]. intros z Hz.
      by apply (label_lt_trans x y z).
    + constructor; [done|].
      apply Forall_forall. intros z Hz.
      apply elem_of_unique_insert in Hz as [->|Hz]; [done|].
      by apply (proj1 (Forall_forall _ _) Hy).
Qed.

Lemma np_unique_sorted l : StronglySorted label_lt (np_unique l).
Proof.
  induction l as [|x l IH]; simpl.
  - constructor.
  - by apply unique_insert_sorted.
Qed.

Lemma elem_of_np_unique v l : v ∈ np_unique l ↔ v ∈ l.
Proof.
  induction l as [|x l IH]; simpl.
  - done.
  - rewrite elem_of_unique_insert, IH, elem_of_cons. tauto.
Qed.

Lemma sorted_NoDup l : StronglySorted label_lt l → NoDup l.
Proof.
  induction 1 as [|y l Hs IH Hy]; constructor; [|done].
  intros Hin. apply (proj1 (Forall_forall _ _) Hy) in Hin.
  by apply label_lt_irrefl in Hin.
Qed.

Lemma index_of_lookup v l i : index_of v l = Some i → l !! i = Some v.
Proof.
  revert i. induction l as [|c l IH]; intros i; simpl; [done|].
  case_decide as Hc.
  - intros [= <-]. by subst.
  - destruct (index_of v l) as [j|] eqn:Hj; simpl; [|done].
    intros [= <-]. by apply IH.
Qed.

Lemma index_of_elem v l : v ∈ l → ∃ i, index_of v l = Some i.
Proof.
  induction l as [|c l IH]; simpl.
  - by intros ?%elem_of_nil.
  - intros Hin. case_decide as Hc; [by eexists|].
    apply elem_of_cons in Hin as [->|Hin]; [done|].
    destruct (IH Hin) as [i ->]. by eexists.
Qed.

Lemma index_of_None v l : index_of v l = None ↔ v ∉ l.
Proof.
  split.
  - intros Hn Hin. apply index_of_elem in Hin as [i Hi]. congruence.
  - intros Hnin. destruct (index_of v l) as [i|] eqn:Hi; [|done].
    apply index_of_lookup in Hi. exfalso. apply Hnin.
    by eapply list_elem_of_lookup_2.
Qed.

Lemma index_of_NoDup_lookup v l i :
  NoDup l → l !! i = Some v → index_of v l = Some i.
Proof.
  intros Hnd Hl.
  destruct (index_of_elem v l) as [j Hj]; [by eapply list_elem_of_lookup_2|].
  rewrite Hj. f_equal.
  apply index_of_lookup in Hj.
  by eapply NoDup_lookup.
Qed.

Lemma filter_none {A} (P : A → Prop) `{∀ x, Decision (P x)} (l : list A) :
  Forall (λ x, ¬ P x) l → filter P l = [].
Proof.
  induction 1 as [|x l Hx Hl IH]; [done|].
  by rewrite filter_cons_False.
Qed.

(** In a strictly ascending list the position of a value is the number of
    elements below it. *)
Lemma index_of_sorted_rank v l i :
  StronglySorted label_lt l → index_of v l = Some i →
  length (filter (λ c, label_lt c v) l) = i.
Proof.
  intros Hs. revert i. induction Hs as [|c l Hs IH Hc]; intros i; simpl.
  - done.
  - case_decide as Hcv.
    + intros [= <-]. subst c.
      rewrite filter_cons_False by apply label_lt_irrefl.
      rewrite filter_none; [done|].
      eapply Forall_impl; [exact Hc|]. intros z Hz. by apply label_lt_asym.
    + destruct (index_of v l) as [j|] eqn:Hj; simpl; [|done].
      intros [= <-].
      rewrite filter_cons_True.
      * simpl. f_equal. by apply IH.
      * apply (proj1 (Forall_forall _ _) Hc).
        apply index_of_lookup in Hj. by eapply list_elem_of_lookup_2.
Qed.

Lemma np_unique_remove_dups l : np_unique l ≡ₚ remove_dups l.
Proof.
  apply NoDup_Permutation.
  - apply sorted_NoDup, np_unique_sorted.
  - apply NoDup_remove_dups.
  - intros v. by rewrite elem_of_np_unique, elem_of_remove_dups.
Qed.

Lemma index_of_np_unique_rank v l :
  v ∈ l → index_of v (np_unique l) = Some (rank_of v l).
Proof.
  intros Hin.
  destruct (index_of_elem v (np_unique l)) as [i Hi];
    [by apply elem_of_np_unique|].
  rewrite Hi. f_equal. symmetry.
  apply index_of_sorted_rank in Hi; [|apply np_unique_sorted].
  unfold rank_of. by rewrite <- (np_unique_remove_dups l).
Qed.

(** ** The encoder *)

Lemma fit_classes vs enc :
  LabelEncoder.fit vs = Ok enc → classes_ enc = np_unique vs.
Proof.
  unfold LabelEncoder.fit. destruct (homogeneous vs); [|done].
  by intros [= <-].
Qed.

Lemma encode1_elem enc v :
  v ∈ classes_ enc →
  ∃ i, LabelEncoder.encode1 enc v = Ok i ∧ classes_ enc !! i = Some v.
Proof.
  intros Hin. unfold LabelEncoder.encode1.
  destruct (index_of_elem v (classes_ enc) Hin) as [i Hi].
  rewrite Hi. exists i. split; [done|]. by apply index_of_lookup.
Qed.

Lemma encode1_unseen enc v :
  v ∉ classes_ enc → LabelEncoder.encode1 enc v = Raise ValueError.
Proof.
  intros Hin. unfold LabelEncoder.encode1.
  by rewrite (proj2 (index_of_None v (classes_ enc)) Hin).
Qed.

Lemma transform_singleton enc v i :
  LabelEncoder.encode1 enc v = Ok i →
  LabelEncoder.transform enc [v] = Ok [i].
Proof. intros H. unfold LabelEncoder.transform. simpl. by rewrite H. Qed.

Lemma transform_singleton_unseen enc v :
  v ∉ classes_ enc → LabelEncoder.transform enc [v] = Raise ValueError.
Proof.
  intros H. unfold LabelEncoder.transform. simpl.
  by rewrite (encode1_unseen enc v H).
Qed.

Lemma inverse_transform_singleton enc v i :
  classes_ enc !! i = Some v →
  LabelEncoder.inverse_transform enc [i] = Ok [v].
Proof.
  intros H. unfold LabelEncoder.inverse_transform, LabelEncoder.decode1.
  simpl. by rewrite H.
Qed.

(** C6. For every identifier seen by the encoder during fit, decoding the
    encoding of that identifier gives the identifier back:
    inverse(transform([id])) == [id]. *)
Theorem encoder_round_trip (vs : list label) (enc : LabelEncoder) (v : label) :
  LabelEncoder.fit vs = Ok enc →
  v ∈ vs →
  LabelEncoder.transform enc [v] ≫= LabelEncoder.inverse_transform enc
  = Ok [v].
Proof.
  intros Hfit Hin.
  assert (Hc : v ∈ classes_ enc).
  { rewrite (fit_classes vs enc Hfit). by apply elem_of_np_unique. }
  destruct (encode1_elem enc v Hc) as (i & Hi & Hl).
  rewrite (transform_singleton enc v i Hi). simpl.
  by apply inverse_transform_singleton.
Qed.

Lemma encoder_round_trip_witness :
  LabelEncoder.transform (MkLabelEncoder [LStr "u1"; LStr "u2"]) [LStr "u2"]
    ≫= LabelEncoder.inverse_transform (MkLabelEncoder [LStr "u1"; LStr "u2"])
  = Ok [LStr "u2"].
Proof.
  apply (encoder_round_trip [LStr "u2"; LStr "u1"; LStr "u2"]).
  - reflexivity.
  - apply elem_of_cons. by left.
Defined.

(** C5, as the specification words it, fails: the value seen first does
    not get index 0 when a smaller value follows it. *)
Lemma first_appearance_order_fails :
  ¬ (∀ (vs : list label) (enc : LabelEncoder) (v : label) (i : nat),
       LabelEncoder.fit vs = Ok enc →
       first_seen_index vs v = Some i →
       LabelEncoder.transform enc [v] = Ok [i]).
Proof.
  intros H.
  specialize (H [LStr "b"; LStr "a"] (MkLabelEncoder [LStr "a"; LStr "b"])
                (LStr "b") 0 eq_refl eq_refl).
  vm_compute in H. discriminate H.
Qed.

(** C5, amended. For every input sequence of identifiers of one kind, fit
    assigns each distinct value the index of its rank in ascending order of
    the values: the table of classes is strictly ascending, holds exactly
    the values of the sequence, and a value is encoded as the number of
    distinct values below it, wherever it first appeared. *)
Theorem fit_assigns_sorted_rank (vs : list label) :
  homogeneous vs = true →
  ∃ enc, LabelEncoder.fit vs = Ok enc
    ∧ StronglySorted label_lt (classes_ enc)
    ∧ (∀ v, v ∈ classes_ enc ↔ v ∈ vs)
    ∧ (∀ v, v ∈ vs →
          LabelEncoder.transform enc [v] = Ok [rank_of v vs]).
Proof.
  intros Hh. exists (MkLabelEncoder (np_unique vs)).
  split; [|split; [|split]].
  - unfold LabelEncoder.fit. by rewrite Hh.
  - apply np_unique_sorted.
  - intros v. apply elem_of_np_unique.
  - intros v Hin. apply transform_singleton.
    unfold LabelEncoder.encode1. simpl.
    by rewrite (index_of_np_unique_rank v vs Hin).
Qed.

Lemma fit_assigns_sorted_rank_witness :
  ∃ enc, LabelEncoder.fit [LStr "b"; LStr "a"; LStr "b"] = Ok enc
    ∧ StronglySorted label_lt (classes_ enc)
    ∧ (∀ v, v ∈ classes_ enc ↔ v ∈ [LStr "b"; LStr "a"; LStr "b"])
    ∧ (∀ v, v ∈ [LStr "b"; LStr "a"; LStr "b"] →
         LabelEncoder.transform enc [v]
         = Ok [rank_of v [LStr "b"; LStr "a"; LStr "b"]]).
Proof.
  apply (fit_assigns_sorted_rank [LStr "b"; LStr "a"; LStr "b"]).
  reflexivity.
Defined.

(** ** The interaction matrix *)

Lemma accumulate_lookup m t k :
  default 0%Z (accumulate m t !! k)
  = (default 0 (m !! k) + (if decide (t.1 = k) then t.2 else 0))%Z.
Proof.
  unfold accumulate. rewrite lookup_insert.
  case_decide as Hk.
  - by subst k.
  - simpl. lia.
Qed.

Lemma accumulate_is_Some m t k :
  is_Some (accumulate m t !! k) ↔ t.1 = k ∨ is_Some (m !! k).
Proof.
  unfold accumulate. rewrite lookup_insert.
  case_decide as Hk.
  - split; [by left|by eexists].
  - split; [by right|]. by intros [?|?].
Qed.

Lemma accumulate_comm m a b :
  accumulate (accumulate m a) b = accumulate (accumulate m b) a.
Proof.
  unfold accumulate. destruct (decide (a.1 = b.1)) as [Heq|Hne].
  - rewrite Heq, !lookup_insert_eq, !insert_insert_eq. simpl.
    f_equal. lia.
  - rewrite (lookup_insert_ne _ a.1 b.1) by done.
    rewrite (lookup_insert_ne _ b.1 a.1) by done.
    by apply insert_insert_ne.
Qed.

Lemma foldl_accumulate_perm l l' :
  l ≡ₚ l' → ∀ m, foldl accumulate m l = foldl accumulate m l'.
Proof.
  induction 1 as [|x l l' Hp IH|x y l|l l' l'' Hp IH Hp' IH']; intros m;
    simpl.
  - done.
  - apply IH.
  - by rewrite accumulate_comm.
  - by rewrite IH.
Qed.

Lemma foldl_accumulate_lookup l : ∀ m i j,
  default 0%Z (foldl accumulate m l !! (i, j))
  = (default 0 (m !! (i, j)) + pair_sum l i j)%Z.
Proof.
  unfold pair_sum.
  induction l as [|t l IH]; intros m i j; simpl.
  - lia.
  - rewrite IH, accumulate_lookup, filter_cons.
    destruct (decide (t.1 = (i, j))) as [Ht|Ht].
    + rewrite fmap_cons. simpl. lia.
    + lia.
Qed.

Lemma csr_of_triples_perm l l' :
  l ≡ₚ l' → csr_of_triples l' = csr_of_triples l.
Proof.
  intros Hp. destruct l as [|t l], l' as [|t' l'].
  - done.
  - by apply Permutation_nil_cons in Hp.
  - symmetry in Hp. by apply Permutation_nil_cons in Hp.
  - unfold csr_of_triples. f_equal.
    rewrite (foldl_accumulate_perm _ _ Hp ∅). f_equal.
    f_equal; f_equal; by rewrite Hp.
Qed.

Lemma csr_of_triples_Ok l M :
  csr_of_triples l = Ok M →
  l ≠ []
  ∧ shape M = (S (max_list (l.*1.*1)), S (max_list (l.*1.*2)))
  ∧ entries M = foldl accumulate ∅ l.
Proof. destruct l as [|t l]; [done|]. by intros [= <-]. Qed.

Lemma csr_of_triples_entry l M i j :
  csr_of_triples l = Ok M → entry M i j = pair_sum l i j.
Proof.
  intros (_ & _ & He)%csr_of_triples_Ok.
  unfold entry. rewrite He, foldl_accumulate_lookup, lookup_empty.
  simpl. lia.
Qed.

Lemma max_list_elem_of_lt (l : list nat) n : n ∈ l → n < S (max_list l).
Proof. intros H. apply max_list_elem_of_le in H. lia. Qed.

Lemma csr_of_triples_in_shape l M i j r :
  csr_of_triples l = Ok M → (i, j, r) ∈ l →
  i < (shape M).1 ∧ j < (shape M).2.
Proof.
  intros (_ & Hs & _)%csr_of_triples_Ok Hin. rewrite Hs. cbn [fst snd].
  split; apply max_list_elem_of_lt.
  - apply list_elem_of_fmap. exists (i, j). split; [done|].
    apply list_elem_of_fmap. by exists (i, j, r).
  - apply list_elem_of_fmap. exists (i, j). split; [done|].
    apply list_elem_of_fmap. by exists (i, j, r).
Qed.




(** ** Python built-ins *)

Lemma py_mapM_Ok {A B} (f : A → pyresult B) (l : list A) (g : A → B) :
  (∀ x, x ∈ l → f x = Ok (g x)) → py_mapM f l = Ok (g <$> l).
Proof.
  induction l as [|x l IH]; intros Hf; simpl; [done|].
  rewrite (Hf x) by (apply elem_of_cons; by left). simpl.
  rewrite IH; [done|]. intros y Hy. apply Hf, elem_of_cons. by right.
Qed.

Lemma py_mapM_Forall2 {A B} (f : A → pyresult B) (l : list A) (ys : list B) :
  py_mapM f l = Ok ys → Forall2 (λ x y, f x = Ok y) l ys.
Proof.
  revert ys. induction l as [|x l IH]; intros ys; simpl.
  - intros [= <-]. constructor.
  - destruct (f x) as [y|e] eqn:Hx; [|done]. simpl.
    destruct (py_mapM f l) as [ys'|e]; [|done]. simpl.
    intros [= <-]. constructor; [done|]. by apply IH.
Qed.

Lemma py_mapM_Raise {A B} (f : A → pyresult B) (l : list A) (e : exn) x :
  x ∈ l → (∀ y, y ∈ l → f y = Raise e ∨ ∃ b, f y = Ok b) →
  f x = Raise e → py_mapM f l = Raise e.
Proof.
  induction l as [|y l IH]; intros Hin Hall Hx; simpl.
  - by apply elem_of_nil in Hin.
  - destruct (Hall y) as [Hy|[b Hy]]; [apply elem_of_cons; by left| |];
      rewrite Hy; simpl; [done|].
    apply elem_of_cons in Hin as [->|Hin]; [congruence|].
    rewrite IH; [done|done| |done].
    intros z Hz. apply Hall, elem_of_cons. by right.
Qed.

Lemma sorted_insert_perm {A} (key : A → Z) x l :
  sorted_insert key x l ≡ₚ x :: l.
Proof.
  induction l as [|y l IH]; simpl; [done|].
  case_decide; [done|]. rewrite IH. apply perm_swap.
Qed.

Lemma py_sorted_perm {A} (key : A → Z) l : py_sorted key l ≡ₚ l.
Proof.
  induction l as [|x l IH]; simpl; [done|].
  by rewrite sorted_insert_perm, IH.
Qed.

Lemma ranks_before_insert x l :
  StronglySorted ranks_before l →
  Forall (λ y, x.1 < y.1) l →
  StronglySorted ranks_before (sorted_insert (λ p : nat * Z, (- p.2)%Z) x l).
Proof.
  induction 1 as [|y l Hs IH Hy]; intros Hx; simpl.
  - repeat constructor.
  - apply Forall_cons in Hx as [Hxy Hx].
    case_decide as Hk.
    + constructor; [by constructor|].
      constructor.
      * unfold ranks_before. lia.
      * apply Forall_forall. intros z Hz.
        pose proof (proj1 (Forall_forall _ _) Hy z Hz) as Hyz.
        pose proof (proj1 (Forall_forall _ _) Hx z Hz) as Hxz.
        unfold ranks_before in *. lia.
    + constructor; [by apply IH|].
      apply Forall_forall. intros z Hz.
      rewrite sorted_insert_perm in Hz.
      apply elem_of_cons in Hz as [->|Hz].
      * unfold ranks_before. lia.
      * by apply (proj1 (Forall_forall _ _) Hy).
Qed.

Lemma py_sorted_ranks_before l :
  StronglySorted (λ x y : nat * Z, x.1 < y.1) l →
  StronglySorted ranks_before (py_sorted (λ p : nat * Z, (- p.2)%Z) l).
Proof.
  induction 1 as [|x l Hs IH Hx]; simpl.
  - constructor.
  - apply ranks_before_insert; [done|].
    apply Forall_forall. intros y Hy. rewrite py_sorted_perm in Hy.
    by apply (proj1 (Forall_forall _ _) Hx).
Qed.

Lemma zip_seq_ascending {A} (ws : list A) s :
  StronglySorted (λ x y : nat * A, x.1 < y.1) (zip (seq s (length ws)) ws).
Proof.
  revert s. induction ws as [|w ws IH]; intros s; simpl.
  - constructor.
  - constructor; [apply IH|].
    apply Forall_forall. intros [i v] Hin. simpl.
    apply list_elem_of_lookup in Hin as [k Hk].
    apply lookup_zip_with_Some in Hk as (a & b & Hab & Ha & Hb).
    apply lookup_seq in Ha. injection Hab as -> ->. lia.
Qed.

Lemma py_enumerate_lookup {A} (ws : list A) i w :
  (i, w) ∈ py_enumerate ws → ws !! i = Some w.
Proof.
  unfold py_enumerate. intros Hin.
  apply list_elem_of_lookup in Hin as [k Hk].
  apply lookup_zip_with_Some in Hk as (a & b & Hab & Ha & Hb).
  apply lookup_seq in Ha. injection Hab as -> ->.
  destruct Ha as [-> _]. done.
Qed.

Lemma py_enumerate_fst {A} (ws : list A) :
  (py_enumerate ws).*1 = seq 0 (length ws).
Proof. unfold py_enumerate. apply fst_zip. by rewrite length_seq. Qed.

Lemma py_slice_to_nonneg {A} (n : Z) (l : list A) :
  (0 ≤ n)%Z → py_slice_to n l = take (Z.to_nat n) l.
Proof. intros Hn. unfold py_slice_to. by rewrite decide_True. Qed.

(** ** What [fit] establishes *)

Lemma fit_inv L self ambient df (m : RecommendationSystem L) :
  RecommendationSystem.fit L self ambient df = Ok m →
  ∃ users items,
    LabelEncoder.fit (user_id <$> df) = Ok (user_encoder m)
    ∧ LabelEncoder.fit (parent_asin <$> df) = Ok (item_encoder m)
    ∧ LabelEncoder.transform (user_encoder m) (user_id <$> df) = Ok users
    ∧ LabelEncoder.transform (item_encoder m) (parent_asin <$> df) = Ok items
    ∧ csr_matrix_coo (rating <$> df) items users = Ok (item_user_data m)
    ∧ model_params m = new_model self
    ∧ als_fit L (new_model self) (initial_seed (new_model self) ambient)
        (item_user_data m) = Ok (model m).
Proof.
  unfold RecommendationSystem.fit, LabelEncoder.fit_transform.
  destruct (LabelEncoder.fit (user_id <$> df)) as [ue|e] eqn:Hue; [|done].
  simpl.
  destruct (LabelEncoder.transform ue (user_id <$> df)) as [users|e] eqn:Hus;
    [|done].
  simpl.
  destruct (LabelEncoder.fit (parent_asin <$> df)) as [ie|e] eqn:Hie; [|done].
  simpl.
  destruct (LabelEncoder.transform ie (parent_asin <$> df))
    as [items|e] eqn:His; [|done].
  simpl.
  destruct (csr_matrix_coo (rating <$> df) items users) as [M|e] eqn:HM;
    [|done].
  simpl.
  destruct (als_fit L (new_model self) _ M) as [st|e] eqn:Hst; [|done].
  simpl. intros [= <-]. simpl. by exists users, items.
Qed.

Lemma csr_matrix_coo_Ok data row col M :
  csr_matrix_coo data row col = Ok M →
  row ≠ []
  ∧ length row = length data ∧ length col = length data
  ∧ shape M = (S (max_list row), S (max_list col))
  ∧ csr_of_triples (zip (zip row col) data) = Ok M.
Proof.
  unfold csr_matrix_coo. case_decide as Hlen; [|done].
  destruct Hlen as [Hr Hc]. intros HM.
  destruct (csr_of_triples_Ok _ _ HM) as (Hne & Hs & _).
  split; [|split; [done|split; [done|split; [|done]]]].
  - intros ->. by destruct col.
  - rewrite Hs.
    rewrite (fst_zip (zip row col) data)
      by (rewrite length_zip_with; lia).
    rewrite (fst_zip row col), (snd_zip row col) by lia. done.
Qed.

Lemma max_list_lt (l : list nat) n :
  0 < n → (∀ c, c ∈ l → c < n) → max_list l < n.
Proof.
  intros Hn. induction l as [|c l IH]; intros Hl; simpl; [done|].
  apply Nat.max_lub_lt.
  - apply Hl, elem_of_cons. by left.
  - apply IH. intros d Hd. apply Hl, elem_of_cons. by right.
Qed.

Lemma encode1_Ok_lookup enc v c :
  LabelEncoder.encode1 enc v = Ok c → classes_ enc !! c = Some v.
Proof.
  unfold LabelEncoder.encode1.
  destruct (index_of v (classes_ enc)) as [i|] eqn:Hi; [|done].
  intros [= <-]. by apply index_of_lookup.
Qed.

(** The codes of the fitted column cover exactly [0 .. number of classes). *)
Lemma fit_transform_codes y enc codes :
  LabelEncoder.fit y = Ok enc →
  LabelEncoder.transform enc y = Ok codes →
  y ≠ [] →
  S (max_list codes) = length (classes_ enc).
Proof.
  intros Hfit Htr Hne.
  pose proof (fit_classes y enc Hfit) as Hcl.
  apply py_mapM_Forall2 in Htr.
  assert (Hpos : 0 < length (classes_ enc)).
  { destruct y as [|v y]; [done|].
    assert (Hv : v ∈ classes_ enc).
    { rewrite Hcl. apply elem_of_np_unique, elem_of_cons. by left. }
    destruct (classes_ enc); [by apply elem_of_nil in Hv|simpl; lia]. }
  assert (Hlt : max_list codes < length (classes_ enc)).
  { apply max_list_lt; [done|]. intros c Hc.
    apply list_elem_of_lookup in Hc as [k Hk].
    destruct (Forall2_lookup_r _ _ _ _ _ Htr Hk) as (v & _ & Hv).
    apply encode1_Ok_lookup in Hv. by eapply lookup_lt_Some. }
  assert (Hge : length (classes_ enc) - 1 ≤ max_list codes).
  { destruct (lookup_lt_is_Some_2 (classes_ enc) (length (classes_ enc) - 1))
      as [v Hv]; [lia|].
    assert (Hin : v ∈ y).
    { apply elem_of_np_unique. rewrite <- Hcl.
      by eapply list_elem_of_lookup_2. }
    apply list_elem_of_lookup in Hin as [k Hk].
    destruct (Forall2_lookup_l _ _ _ _ _ Htr Hk) as (c & Hc & Hvc).
    assert (c = length (classes_ enc) - 1) as <-.
    { unfold LabelEncoder.encode1 in Hvc.
      rewrite (index_of_NoDup_lookup v (classes_ enc)
                 (length (classes_ enc) - 1)) in Hvc.
      - by injection Hvc as <-.
      - rewrite Hcl. apply sorted_NoDup, np_unique_sorted.
      - done. }
    apply max_list_elem_of_le. by eapply list_elem_of_lookup_2. }
  lia.
Qed.

Lemma transform_nil_inv enc y :
  LabelEncoder.transform enc y = Ok [] → y = [].
Proof.
  intros H%py_mapM_Forall2. by apply Forall2_nil_inv_r in H.
Qed.

Lemma transform_nil_inv' enc codes :
  LabelEncoder.transform enc [] = Ok codes → codes = [].
Proof. by intros [= <-]. Qed.

(** The matrix held by a fitted system has one row per item class and one
    column per user class. *)
Lemma fit_shape L self ambient df (m : RecommendationSystem L) :
  RecommendationSystem.fit L self ambient df = Ok m →
  shape (item_user_data m)
  = (length (classes_ (item_encoder m)), length (classes_ (user_encoder m))).
Proof.
  intros (users & items & Hue & Hie & Hus & His & HM & _ & _)%fit_inv.
  apply csr_matrix_coo_Ok in HM as (Hne & Hl1 & Hl2 & Hs & _).
  assert (Hdf : df ≠ []).
  { intros ->. apply Hne. by injection His as <-. }
  rewrite Hs. f_equal.
  - apply (fit_transform_codes (parent_asin <$> df)); [done|done|].
    by destruct df.
  - apply (fit_transform_codes (user_id <$> df)); [done|done|].
    by destruct df.
Qed.

(** ** Row sums are total weights *)

Lemma sum_Z_fmap_add {A} (f g : A → Z) (l : list A) :
  sum_Z ((λ x, f x + g x)%Z <$> l) = (sum_Z (f <$> l) + sum_Z (g <$> l))%Z.
Proof.
  induction l as [|x l IH]; [done|].
  rewrite !fmap_cons. unfold sum_Z in *. simpl. rewrite IH. lia.
Qed.

Lemma sum_Z_fmap_ext {A} (f g : A → Z) (l : list A) :
  (∀ x, x ∈ l → f x = g x) → sum_Z (f <$> l) = sum_Z (g <$> l).
Proof.
  induction l as [|x l IH]; intros Hfg; [done|].
  rewrite !fmap_cons. unfold sum_Z in *. simpl.
  rewrite (Hfg x) by (apply elem_of_cons; by left).
  rewrite IH; [done|]. intros y Hy. apply Hfg, elem_of_cons. by right.
Qed.

Lemma sum_Z_single (b : nat) (r : Z) s n :
  sum_Z ((λ u, if decide (u = b) then r else 0%Z) <$> seq s n)
  = if decide (s ≤ b < s + n) then r else 0%Z.
Proof.
  revert s. induction n as [|n IH]; intros s.
  - simpl. case_decide; [lia|done].
  - cbn [seq]. rewrite fmap_cons. unfold sum_Z in *. simpl.
    rewrite IH. repeat case_decide; lia.
Qed.

Lemma sum_Z_zero {A} (l : list A) : sum_Z ((λ _, 0%Z) <$> l) = 0%Z.
Proof. induction l as [|x l IH]; [done|]. rewrite fmap_cons. simpl. lia. Qed.

Lemma sum_pair_sum_row (l : list triple) (i n : nat) :
  (∀ t, t ∈ l → t.1.2 < n) →
  sum_Z (pair_sum l i <$> seq 0 n)
  = sum_Z ((λ t : triple, t.2) <$> filter (λ t : triple, t.1.1 = i) l).
Proof.
  induction l as [|t l IH]; intros Hl.
  - unfold pair_sum. simpl. apply sum_Z_zero.
  - assert (Ht : t.1.2 < n) by (apply Hl, elem_of_cons; by left).
    assert (IH' : sum_Z (pair_sum l i <$> seq 0 n)
                  = sum_Z ((λ t : triple, t.2)
                             <$> filter (λ t : triple, t.1.1 = i) l)).
    { apply IH. intros t' Ht'. apply Hl, elem_of_cons. by right. }
    destruct (decide (t.1.1 = i)) as [Hi|Hi].
    + rewrite filter_cons_True by done. rewrite fmap_cons.
      rewrite (sum_Z_fmap_ext _
        (λ u, (if decide (u = t.1.2) then t.2 else 0) + pair_sum l i u)%Z).
      * rewrite sum_Z_fmap_add, IH', sum_Z_single, decide_True by lia.
        simpl. lia.
      * intros u _. unfold pair_sum. rewrite filter_cons.
        destruct t as [[a b] r]. simpl in *. subst a.
        destruct (decide (u = b)) as [->|Hu].
        -- rewrite decide_True by done. rewrite fmap_cons. simpl. lia.
        -- rewrite decide_False by congruence. lia.
    + rewrite filter_cons_False by done. rewrite <- IH'.
      apply sum_Z_fmap_ext. intros u _. unfold pair_sum.
      rewrite filter_cons_False; [done|].
      intros Heq. apply Hi. by rewrite Heq.
Qed.

Lemma row_sum_triples (l : list triple) (M : csr_matrix) (i : nat) :
  csr_of_triples l = Ok M →
  row_sum M i
  = sum_Z ((λ t : triple, t.2) <$> filter (λ t : triple, t.1.1 = i) l).
Proof.
  intros HM. unfold row_sum.
  rewrite (sum_Z_fmap_ext _ (pair_sum l i))
    by (intros u _; by apply csr_of_triples_entry).
  apply sum_pair_sum_row. intros [[a b] r] Ht.
  by apply (csr_of_triples_in_shape l M a b r HM).
Qed.

Lemma weight_of_encoded_rows (enc : LabelEncoder) (df : DataFrame)
    (items users : list nat) (i : nat) (it : label) :
  NoDup (classes_ enc) →
  classes_ enc !! i = Some it →
  Forall2 (λ v c, LabelEncoder.encode1 enc v = Ok c) (parent_asin <$> df)
    items →
  length users = length df →
  sum_Z ((λ t : triple, t.2)
           <$> filter (λ t : triple, t.1.1 = i)
                 (zip (zip items users) (rating <$> df)))
  = total_weight df it.
Proof.
  intros Hnd Hit. unfold total_weight. revert items users.
  induction df as [|r df IH]; intros items users Hf Hlen.
  - apply Forall2_nil_inv_l in Hf as ->. done.
  - rewrite fmap_cons in Hf.
    apply Forall2_cons_inv_l in Hf as (c & items' & Hc & Hf & ->).
    destruct users as [|u users]; [done|]. simpl in Hlen.
    rewrite fmap_cons. cbn [zip zip_with].
    assert (Hiff : c = i ↔ parent_asin r = it).
    { pose proof (encode1_Ok_lookup _ _ _ Hc) as Hl. split.
      - intros Hci. subst c. congruence.
      - intros Hri. rewrite <- Hri in Hit.
        unfold LabelEncoder.encode1 in Hc.
        rewrite (index_of_NoDup_lookup _ _ _ Hnd Hit) in Hc.
        by injection Hc as <-. }
    destruct (decide (c = i)) as [Hci|Hci].
    + rewrite (filter_cons_True (λ t : triple, t.1.1 = i)) by done.
      rewrite (filter_cons_True (λ r, parent_asin r = it)) by tauto.
      rewrite !fmap_cons. unfold sum_Z in *. simpl. f_equal.
      apply IH; [done|lia].
    + rewrite (filter_cons_False (λ t : triple, t.1.1 = i)) by done.
      rewrite (filter_cons_False (λ r, parent_asin r = it)) by tauto.
      apply IH; [done|lia].
Qed.

(** The row sum of an item in the training matrix is the total weight of
    that item in the training table. *)
Lemma fit_row_sum L self ambient train (m : RecommendationSystem L) i it :
  RecommendationSystem.fit L self ambient train = Ok m →
  classes_ (item_encoder m) !! i = Some it →
  row_sum (item_user_data m) i = total_weight train it.
Proof.
  intros (users & items & Hue & Hie & Hus & His & HM & _)%fit_inv Hit.
  apply csr_matrix_coo_Ok in HM as (_ & Hl1 & Hl2 & _ & HM).
  rewrite (row_sum_triples _ _ i HM).
  rewrite length_fmap in Hl1, Hl2.
  apply (weight_of_encoded_rows (item_encoder m)); [|done| |done].
  - rewrite (fit_classes _ _ Hie). apply sorted_NoDup, np_unique_sorted.
  - by apply py_mapM_Forall2.
Qed.

(** ** The popularity fallback *)

Lemma StronglySorted_fmap_elem {A B} (f : A → B) (R1 : relation A)
    (R2 : relation B) (l : list A) :
  (∀ x y, x ∈ l → y ∈ l → R1 x y → R2 (f x) (f y)) →
  StronglySorted R1 l → StronglySorted R2 (f <$> l).
Proof.
  intros HR Hs. induction Hs as [|x l Hs IH Hx]; csimpl; constructor.
  - apply IH. intros y z Hy Hz. apply HR; apply elem_of_cons; by right.
  - apply Forall_fmap, Forall_forall. intros y Hy. simpl.
    apply HR; [apply elem_of_cons; by left|apply elem_of_cons; by right|].
    by apply (proj1 (Forall_forall _ _) Hx).
Qed.

Lemma py_mapM_total {A B} (f : A → pyresult B) (l : list A) :
  (∀ x, x ∈ l → ∃ y, f x = Ok y) → ∃ ys, py_mapM f l = Ok ys.
Proof.
  induction l as [|x l IH]; intros Hf; simpl; [by eexists|].
  destruct (Hf x) as [y Hy]; [apply elem_of_cons; by left|].
  destruct IH as [ys Hys].
  { intros z Hz. apply Hf, elem_of_cons. by right. }
  rewrite Hy, Hys. simpl. by eexists.
Qed.

Lemma csr_row_sums_lookup M i w :
  csr_row_sums M !! i = Some w → w = row_sum M i ∧ i < (shape M).1.
Proof.
  unfold csr_row_sums. rewrite list_lookup_fmap.
  destruct (seq 0 (shape M).1 !! i) as [j|] eqn:Hj; [|done].
  apply lookup_seq in Hj as [-> Hlt]. simpl. by intros [= <-].
Qed.

Lemma popularity_ranking_perm M :
  popularity_ranking M ≡ₚ seq 0 (shape M).1.
Proof.
  unfold popularity_ranking.
  rewrite py_sorted_perm, py_enumerate_fst.
  unfold csr_row_sums. by rewrite length_fmap, length_seq.
Qed.

Lemma popularity_ranking_sorted M :
  StronglySorted (more_popular M) (popularity_ranking M).
Proof.
  unfold popularity_ranking.
  apply (StronglySorted_fmap_elem fst ranks_before).
  - intros [i w] [j v] Hi Hj. rewrite py_sorted_perm in Hi, Hj.
    apply py_enumerate_lookup, csr_row_sums_lookup in Hi as [-> _].
    apply py_enumerate_lookup, csr_row_sums_lookup in Hj as [-> _].
    unfold ranks_before, more_popular. simpl. done.
  - apply py_sorted_ranks_before. apply zip_seq_ascending.
Qed.

Lemma popularity_fallback_nonneg L (m : RecommendationSystem L) n :
  (0 ≤ n)%Z →
  RecommendationSystem.popularity_fallback L m n
  = take (Z.to_nat n) (popularity_ranking (item_user_data m)).
Proof.
  intros Hn.
  unfold RecommendationSystem.popularity_fallback, popularity_ranking.
  by rewrite py_slice_to_nonneg, fmap_take.
Qed.

Lemma recommendations_unseen L (m : RecommendationSystem L) uid n :
  uid ∉ classes_ (user_encoder m) →
  RecommendationSystem.recommendations L m uid n
  = Ok (RecommendationSystem.popularity_fallback L m n).
Proof.
  intros Hu.
  unfold RecommendationSystem.recommendations,
    RecommendationSystem.try_block.
  by rewrite (transform_singleton_unseen _ _ Hu).
Qed.

Lemma decode_item_Ok L (m : RecommendationSystem L) i v :
  RecommendationSystem.decode_item L m i = Ok v
  ↔ classes_ (item_encoder m) !! i = Some v.
Proof.
  unfold RecommendationSystem.decode_item, LabelEncoder.inverse_transform,
    LabelEncoder.decode1. simpl.
  destruct (classes_ (item_encoder m) !! i) as [c|]; simpl.
  - split; by intros [= <-].
  - done.
Qed.

(** C1, as stated for every n, fails on a negative count: the slice
    [[:-1]] keeps all items but the last, so the list is longer than n. *)
Lemma cold_start_negative_count :
  ∃ (m : RecommendationSystem (canned_library (Ok []))) (items : list label),
    train_model _ 0 two_items_one_user = Ok m
    ∧ (LStr "new" ∉ classes_ (user_encoder m))
    ∧ RecommendationSystem.recommend _ m (LStr "new") (-1)
      = Ok items
    ∧ ¬ (Z.of_nat (length items) ≤ -1)%Z.
Proof.
  eexists. exists [LStr "a"]. split; [vm_compute; reflexivity|].
  split; [|split].
  - cbn. intros H. apply list_elem_of_singleton in H. discriminate H.
  - vm_compute. reflexivity.
  - simpl. lia.
Qed.

(** C1, amended to a count n >= 0. For every fitted system, every user
    identifier absent from the user encoder and every n >= 0, recommend
    raises nothing and returns the decoded first n entries of the global
    popularity ranking: all item indices ordered by row sum of the training
    item-user matrix (the total rating weight of the item in the training
    table), larger first, equal sums by ascending index; the list has
    length at most n and is the same for any two unseen identifiers. *)
Theorem cold_start_popularity (L : Library) (self : NewRecommendationSystem)
    (ambient : Z) (train : DataFrame) (m : RecommendationSystem L)
    (uid uid' : label) (n : Z) :
  RecommendationSystem.fit L self ambient train = Ok m →
  uid ∉ classes_ (user_encoder m) →
  uid' ∉ classes_ (user_encoder m) →
  (0 ≤ n)%Z →
  ∃ (ranking : list nat) (items : list label),
    RecommendationSystem.recommend L m uid n = Ok items
    ∧ RecommendationSystem.recommend L m uid' n = Ok items
    ∧ ranking ≡ₚ seq 0 (length (classes_ (item_encoder m)))
    ∧ StronglySorted (more_popular (item_user_data m)) ranking
    ∧ (∀ idx it, classes_ (item_encoder m) !! idx = Some it →
                 row_sum (item_user_data m) idx = total_weight train it)
    ∧ Forall2 (λ it idx, classes_ (item_encoder m) !! idx = Some it)
        items (take (Z.to_nat n) ranking)
    ∧ (Z.of_nat (length items) ≤ n)%Z.
Proof.
  intros Hfit Hu Hu' Hn.
  pose proof (fit_shape L self ambient train m Hfit) as Hshape.
  set (ranking := popularity_ranking (item_user_data m)).
  assert (Hperm : ranking ≡ₚ seq 0 (length (classes_ (item_encoder m)))).
  { unfold ranking. rewrite popularity_ranking_perm. by rewrite Hshape. }
  destruct (py_mapM_total (RecommendationSystem.decode_item L m)
              (take (Z.to_nat n) ranking)) as [items Hitems].
  { intros i Hi. apply subseteq_take in Hi. rewrite Hperm in Hi.
    apply elem_of_seq in Hi.
    destruct (lookup_lt_is_Some_2 (classes_ (item_encoder m)) i) as [v Hv];
      [lia|].
    exists v. by apply decode_item_Ok. }
  exists ranking, items.
  assert (Hrec : ∀ u, u ∉ classes_ (user_encoder m) →
                      RecommendationSystem.recommend L m u n = Ok items).
  { intros u Hnu. unfold RecommendationSystem.recommend.
    rewrite (recommendations_unseen L m u n Hnu). simpl.
    by rewrite popularity_fallback_nonneg. }
  split; [by apply Hrec|]. split; [by apply Hrec|].
  split; [done|]. split; [apply popularity_ranking_sorted|].
  split; [intros idx it; by apply (fit_row_sum L self ambient)|].
  apply py_mapM_Forall2 in Hitems. split.
  - apply Forall2_flip. eapply Forall2_impl; [exact Hitems|].
    intros i v Hv. by apply decode_item_Ok.
  - apply Forall2_length in Hitems. rewrite <- Hitems, length_take. lia.
Qed.

Lemma cold_start_popularity_witness :
  ∃ (m : RecommendationSystem (canned_library (Ok []))),
    train_model (canned_library (Ok [])) 0 scenario_train
    = Ok m
    ∧ ∃ (ranking : list nat) (items : list label),
        RecommendationSystem.recommend _ m (LStr "new_user") 2 = Ok items
        ∧ RecommendationSystem.recommend _ m (LStr "other") 2 = Ok items
        ∧ ranking ≡ₚ seq 0 (length (classes_ (item_encoder m)))
        ∧ StronglySorted (more_popular (item_user_data m)) ranking
        ∧ (∀ idx it, classes_ (item_encoder m) !! idx = Some it →
                     row_sum (item_user_data m) idx
                     = total_weight scenario_train it)
        ∧ Forall2 (λ it idx, classes_ (item_encoder m) !! idx = Some it)
            items (take (Z.to_nat 2) ranking)
        ∧ (Z.of_nat (length items) ≤ 2)%Z.
Proof.
  eexists. split; [vm_compute; reflexivity|].
  apply (cold_start_popularity (canned_library (Ok []))
           RecommendationSystem.init_default 0 scenario_train _
           (LStr "new_user") (LStr "other") 2).
  - vm_compute. reflexivity.
  - cbn. rewrite !not_elem_of_cons. repeat split; try discriminate.
    apply not_elem_of_nil.
  - cbn. rewrite !not_elem_of_cons. repeat split; try discriminate.
    apply not_elem_of_nil.
  - lia.
Defined.

(** ** The known-user path *)

Lemma try_block_known L (m : RecommendationSystem L) uid n idx :
  index_of uid (classes_ (user_encoder m)) = Some idx →
  RecommendationSystem.try_block L m uid n
  = (recs ← als_recommend L (model m) idx (item_user_data m) n true;
     Ok (recs.*1)).
Proof.
  intros Hi. unfold RecommendationSystem.try_block, LabelEncoder.transform,
    LabelEncoder.encode1. simpl. by rewrite Hi.
Qed.

Lemma try_block_unseen L (m : RecommendationSystem L) uid n :
  uid ∉ classes_ (user_encoder m) →
  RecommendationSystem.try_block L m uid n = Raise ValueError.
Proof.
  intros Hu. unfold RecommendationSystem.try_block.
  by rewrite (transform_singleton_unseen _ _ Hu).
Qed.

(** C7 at the failing input.  One user rated items "a" and "b" and is
    known to the encoder; the engine's call for that user raises a
    ValueError.  The handler written for new users catches it: the call
    goes through the fallback and answers the popularity list, both items
    the user has already rated. *)
Lemma known_user_takes_fallback :
  ∃ (m : RecommendationSystem (canned_library (Raise ValueError))),
    train_model (canned_library (Raise ValueError)) 0 two_items_one_user = Ok m
    ∧ LStr "u1" ∈ classes_ (user_encoder m)
    ∧ RecommendationSystem.takes_fallback _ m (LStr "u1") 10 = true
    ∧ RecommendationSystem.recommend _ m (LStr "u1") 10
      = Ok [LStr "a"; LStr "b"].
Proof.
  eexists. split; [vm_compute; reflexivity|]. split; [|split].
  - cbn. apply elem_of_cons. by left.
  - vm_compute. reflexivity.
  - vm_compute. reflexivity.
Qed.

(** The reach of the handler: the fallback is taken exactly when the body
    of the try raises a ValueError, be it from the encoder (identifier
    absent) or from the engine's call for a known identifier; an engine
    failure of another class reaches the caller. *)
Theorem fallback_exactly_on_value_error (L : Library)
    (m : RecommendationSystem L) (uid : label) (n : Z) :
  (RecommendationSystem.takes_fallback L m uid n = true ↔
     uid ∉ classes_ (user_encoder m)
     ∨ ∃ idx, index_of uid (classes_ (user_encoder m)) = Some idx
         ∧ als_recommend L (model m) idx (item_user_data m) n true
           = Raise ValueError)
  ∧ (RecommendationSystem.takes_fallback L m uid n = true ↔
       RecommendationSystem.recommendations L m uid n
       = Ok (RecommendationSystem.popularity_fallback L m n)
       ∧ RecommendationSystem.try_block L m uid n = Raise ValueError)
  ∧ (∀ idx e, index_of uid (classes_ (user_encoder m)) = Some idx →
       als_recommend L (model m) idx (item_user_data m) n true = Raise e →
       e ≠ ValueError →
       RecommendationSystem.recommend L m uid n = Raise e).
Proof.
  split; [|split].
  - unfold RecommendationSystem.takes_fallback.
    destruct (index_of uid (classes_ (user_encoder m))) as [idx|] eqn:Hi.
    + rewrite (try_block_known L m uid n idx Hi).
      destruct (als_recommend L (model m) idx (item_user_data m) n true)
        as [recs|e] eqn:Hr; simpl.
      * split; [done|]. intros [Hu|(i & Hi' & He)]; [|congruence].
        apply index_of_None in Hu. congruence.
      * split.
        -- destruct e; try done. intros _. right. by exists idx.
        -- intros [Hu|(i & Hi' & He)].
           ++ apply index_of_None in Hu. congruence.
           ++ assert (e = ValueError) as -> by congruence. done.
    + apply index_of_None in Hi.
      rewrite (try_block_unseen L m uid n Hi). split; [by left|done].
  - unfold RecommendationSystem.takes_fallback,
      RecommendationSystem.recommendations.
    destruct (RecommendationSystem.try_block L m uid n) as [recs|[]]; simpl;
      split; try done; by intros [_ ?].
  - intros idx e Hi He Hne.
    unfold RecommendationSystem.recommend,
      RecommendationSystem.recommendations.
    rewrite (try_block_known L m uid n idx Hi), He. simpl.
    by destruct e.
Qed.

(** What the engine is handed for a known user, whatever the engine: the
    training matrix as it is held, rows for items.  On the table of one
    user who rated both items, row 0 (the user's own index) stores the
    single column 0, while the user's items are 0 and 1. *)
Lemma known_user_call_arguments (L : Library) (ambient : Z)
    (m : RecommendationSystem L) (n : Z) :
  train_model L ambient two_items_one_user = Ok m →
  RecommendationSystem.try_block L m (LStr "u1") n
  = (recs ← als_recommend L (model m) 0 (item_user_data m) n true;
     Ok (recs.*1))
  ∧ csr_row_indices (item_user_data m) 0 = Ok [0]
  ∧ interacted_items m two_items_one_user (LStr "u1") = [0; 1].
Proof.
  intros (users & items & Hue & Hie & Hus & His & HM & _ & _)%fit_inv.
  assert (Hu : LabelEncoder.fit (user_id <$> two_items_one_user)
               = Ok (MkLabelEncoder [LStr "u1"])) by reflexivity.
  assert (Hi : LabelEncoder.fit (parent_asin <$> two_items_one_user)
               = Ok (MkLabelEncoder [LStr "a"; LStr "b"])) by reflexivity.
  rewrite Hu in Hue. injection Hue as Hue.
  rewrite Hi in Hie. injection Hie as Hie.
  rewrite <- Hue in Hus. rewrite <- Hie in His.
  assert (users = [0; 0]) as -> by (vm_compute in Hus; congruence).
  assert (items = [0; 1]) as -> by (vm_compute in His; congruence).
  assert (HM' : csr_matrix_coo (rating <$> two_items_one_user) [0; 1] [0; 0]
                = Ok (MkCsr (2, 1)
                        (foldl accumulate ∅ [(0, 0, 5%Z); (1, 0, 3%Z)])))
    by reflexivity.
  rewrite HM' in HM. injection HM as HM.
  split; [|split].
  - apply try_block_known. by rewrite <- Hue.
  - rewrite <- HM. vm_compute. reflexivity.
  - unfold interacted_items. rewrite <- Hie. vm_compute. reflexivity.
Qed.

(** C3 at the failing input.  One user rated items "a" and "b"; the engine
    is the reference engine with item scores 2 and 1.  The liked filter
    reads row 0 of the item-by-user matrix, finds column 0 only, and so
    leaves out item 0 alone: the call answers "b", an item the user has
    already interacted with. *)
Theorem liked_filter_reads_item_row :
  ∃ (m : RecommendationSystem
           (reference_library (MkFactors [[1%Z]] [[2%Z]; [1%Z]]))),
    train_model _ 0 two_items_one_user = Ok m
    ∧ index_of (LStr "u1") (classes_ (user_encoder m)) = Some 0
    ∧ interacted_items m two_items_one_user (LStr "u1") = [0; 1]
    ∧ csr_row_indices (item_user_data m) 0 = Ok [0]
    ∧ RecommendationSystem.takes_fallback _ m (LStr "u1") 10 = false
    ∧ RecommendationSystem.recommend _ m (LStr "u1") 10 = Ok [LStr "b"].
Proof.
  eexists. split; [vm_compute; reflexivity|].
  repeat split; vm_compute; reflexivity.
Qed.

(** ** The engine's seed *)

(** C8, as stated, fails: the constructor hands the engine no seed, and
    with a solver that depends on its initial state two fits on the same
    table differ. *)
Lemma no_seed_no_determinism :
  random_state (new_model RecommendationSystem.init_default) = None
  ∧ ∃ (m1 m2 : RecommendationSystem seeded_library),
      train_model seeded_library 1 two_items_one_user
      = Ok m1
      ∧ train_model seeded_library 2 two_items_one_user
        = Ok m2
      ∧ item_user_data m1 = item_user_data m2
      ∧ model m1 ≠ model m2.
Proof.
  split; [reflexivity|].
  eexists. eexists.
  split; [vm_compute; reflexivity|].
  split; [vm_compute; reflexivity|].
  split; [reflexivity|]. cbn. discriminate.
Qed.

(** C8, amended. The constructor takes factors, regularization, alpha and
    iterations and builds the engine from these alone: for every
    configuration the engine's random_state is none, the solver starts
    from the ambient random state, and the factors a fit holds are the
    solver's result from that ambient state on the training matrix. *)
Theorem constructor_passes_no_seed (L : Library) (f : nat) (r a : Q)
    (i : nat) :
  new_model (RecommendationSystem.init f r a i)
  = AlternatingLeastSquares f r a i None
  ∧ random_state (new_model (RecommendationSystem.init f r a i)) = None
  ∧ (∀ ambient,
       initial_seed (new_model (RecommendationSystem.init f r a i)) ambient
       = ambient)
  ∧ (∀ ambient df (m : RecommendationSystem L),
       RecommendationSystem.fit L (RecommendationSystem.init f r a i) ambient df
       = Ok m →
       als_fit L (AlternatingLeastSquares f r a i None) ambient
         (item_user_data m) = Ok (model m)).
Proof.
  split; [done|]. split; [done|]. split; [done|].
  intros ambient df m (_ & _ & _ & _ & _ & _ & _ & _ & Hst)%fit_inv.
  exact Hst.
Qed.

Lemma constructor_passes_no_seed_witness :
  als_fit seeded_library
    (AlternatingLeastSquares 100 (1 # 100)%Q 1%Q 50 None) 7
    (MkCsr (2, 1) (foldl accumulate ∅ [(0, 0, 5%Z); (1, 0, 3%Z)]))
  = Ok 7%Z.
Proof.
  destruct (constructor_passes_no_seed seeded_library 100 (1 # 100)%Q 1%Q 50)
    as (_ & _ & _ & H).
  exact (H 7%Z two_items_one_user
           (@MkRS seeded_library
              (AlternatingLeastSquares 100 (1 # 100)%Q 1%Q 50 None) 7%Z
              (MkLabelEncoder [LStr "u1"])
              (MkLabelEncoder [LStr "a"; LStr "b"])
              (MkCsr (2, 1) (foldl accumulate ∅ [(0, 0, 5%Z); (1, 0, 3%Z)]))
              7%Z)
           eq_refl).
Defined.

(** ** The evaluator *)

Lemma transform_total enc y :
  (∀ v, v ∈ y → v ∈ classes_ enc) →
  ∃ codes, LabelEncoder.transform enc y = Ok codes.
Proof.
  intros Hy. apply py_mapM_total. intros v Hv.
  destruct (encode1_elem enc v (Hy v Hv)) as (i & Hi & _). by exists i.
Qed.

Lemma transform_unseen enc y v :
  v ∈ y → v ∉ classes_ enc →
  LabelEncoder.transform enc y = Raise ValueError.
Proof.
  intros Hin Hv. apply (py_mapM_Raise _ _ _ v Hin).
  - intros w _. unfold LabelEncoder.encode1.
    destruct (index_of w (classes_ enc)); [right; by eexists|by left].
  - by apply encode1_unseen.
Qed.

Lemma elem_of_filter_seen_items train test r :
  r ∈ filter_seen_items train test
  ↔ r ∈ test ∧ parent_asin r ∈ parent_asin <$> train.
Proof. unfold filter_seen_items. rewrite list_elem_of_filter. tauto. Qed.

Lemma evaluate_model_unseen_user L (m : RecommendationSystem L) test k r :
  r ∈ test → user_id r ∉ classes_ (user_encoder m) →
  evaluate_model L m test k = Raise ValueError.
Proof.
  intros Hr Hu.
  unfold evaluate_model, evaluate_inputs, test_user_item.
  rewrite (transform_unseen (user_encoder m) (user_id <$> test) (user_id r));
    [done| |done].
  apply list_elem_of_fmap. by exists r.
Qed.

(** C10. Whenever the held-out table has a row whose user identifier is
    absent from the fitted user encoder, evaluate_model raises (a
    ValueError) and produces no report; the upstream filter does not prevent
    this, since it keeps every row whose item was seen in training whatever
    its user, so the filtered table raises as well. *)
Theorem evaluate_raises_on_unseen_user (L : Library)
    (self : NewRecommendationSystem) (ambient : Z) (train test : DataFrame)
    (m : RecommendationSystem L) (k : Z) (r : Interaction) :
  RecommendationSystem.fit L self ambient train = Ok m →
  r ∈ test →
  user_id r ∉ classes_ (user_encoder m) →
  evaluate_model L m test k = Raise ValueError
  ∧ (user_id r ∉ user_id <$> train)
  ∧ (parent_asin r ∈ parent_asin <$> train →
     r ∈ filter_seen_items train test
     ∧ evaluate_model L m (filter_seen_items train test) k
       = Raise ValueError).
Proof.
  intros Hfit Hr Hu. split; [by eapply evaluate_model_unseen_user|].
  split.
  - apply fit_inv in Hfit as (_ & _ & Hue & _).
    rewrite (fit_classes _ _ Hue) in Hu.
    by rewrite elem_of_np_unique in Hu.
  - intros Hseen.
    assert (Hin : r ∈ filter_seen_items train test)
      by by apply elem_of_filter_seen_items.
    split; [done|]. by eapply evaluate_model_unseen_user.
Qed.

Lemma evaluate_raises_on_unseen_user_witness :
  ∃ (m : RecommendationSystem (canned_library (Ok [0; 1]))),
    train_model _ 0 two_items_one_user = Ok m
    ∧ evaluate_model _ m [MkInteraction (LStr "u9") (LStr "a") 4] 10
      = Raise ValueError
    ∧ (LStr "u9" ∉ user_id <$> two_items_one_user)
    ∧ (LStr "a" ∈ parent_asin <$> two_items_one_user →
       MkInteraction (LStr "u9") (LStr "a") 4
         ∈ filter_seen_items two_items_one_user
             [MkInteraction (LStr "u9") (LStr "a") 4]
       ∧ evaluate_model _ m
           (filter_seen_items two_items_one_user
              [MkInteraction (LStr "u9") (LStr "a") 4]) 10
         = Raise ValueError).
Proof.
  eexists. split; [vm_compute; reflexivity|].
  apply (evaluate_raises_on_unseen_user (canned_library (Ok [0; 1]))
           RecommendationSystem.init_default 0 two_items_one_user
           [MkInteraction (LStr "u9") (LStr "a") 4] _ 10
           (MkInteraction (LStr "u9") (LStr "a") 4)).
  - vm_compute. reflexivity.
  - apply elem_of_cons. by left.
  - cbn. rewrite !not_elem_of_cons. repeat split; try discriminate.
    apply not_elem_of_nil.
Defined.

Lemma to_item_id_spec L (m : RecommendationSystem L) item :
  to_item_id L m item = Ok (item_id_of (classes_ (item_encoder m)) item).
Proof.
  unfold to_item_id, item_id_of. case_decide as Hin.
  - destruct (index_of_elem _ _ Hin) as [i Hi]. rewrite Hi.
    unfold LabelEncoder.transform, LabelEncoder.encode1. simpl.
    by rewrite Hi.
  - by rewrite (proj2 (index_of_None _ _) Hin).
Qed.

Lemma item_id_of_member classes item :
  item_id_of classes item ≠ (-1)%Z ↔ LInt (Z.of_nat item) ∈ classes.
Proof.
  unfold item_id_of.
  destruct (index_of (LInt (Z.of_nat item)) classes) as [i|] eqn:Hi.
  - split; [|lia]. intros _. apply index_of_lookup in Hi.
    by eapply list_elem_of_lookup_2.
  - apply index_of_None in Hi. split; [done|]. by intros ?.
Qed.

Lemma item_id_of_lookup classes item i :
  classes !! i = Some (LInt (Z.of_nat item)) → NoDup classes →
  item_id_of classes item = Z.of_nat i.
Proof.
  intros Hl Hnd. unfold item_id_of.
  by rewrite (index_of_NoDup_lookup _ _ _ Hnd Hl).
Qed.

Lemma item_id_of_strings classes item :
  Forall (λ c, is_str c = true) classes → item_id_of classes item = (-1)%Z.
Proof.
  intros Hs. destruct (decide (item_id_of classes item = (-1)%Z)) as [|Hne];
    [done|].
  apply item_id_of_member in Hne.
  by apply (proj1 (Forall_forall _ _) Hs) in Hne.
Qed.

Lemma evaluate_inputs_inv L (m : RecommendationSystem L) test k T ids uidxs :
  evaluate_inputs L m test k = Ok (T, ids, uidxs) →
  ∃ all_recommendations,
    test_user_item L m test = Ok T
    ∧ LabelEncoder.transform (user_encoder m) (pd_unique (user_id <$> test))
      = Ok uidxs
    ∧ py_mapM (recommend_for_eval L m k) (pd_unique (user_id <$> test))
      = Ok all_recommendations
    ∧ ids = fmap (M:=list) (item_id_of (classes_ (item_encoder m)))
              <$> all_recommendations.
Proof.
  unfold evaluate_inputs.
  destruct (test_user_item L m test) as [T'|e]; [|done]. simpl.
  destruct (LabelEncoder.transform (user_encoder m) _) as [uidxs'|e];
    [|done]. simpl.
  destruct (py_mapM (recommend_for_eval L m k) _) as [recs|e]; [|done].
  simpl.
  rewrite (py_mapM_Ok (py_mapM (to_item_id L m)) recs
             (fmap (M:=list) (item_id_of (classes_ (item_encoder m))))).
  - simpl. intros [= <- <- <-]. by exists recs.
  - intros l _. apply py_mapM_Ok. intros item _. apply to_item_id_spec.
Qed.

(** With integer raw identifiers the recommended index is read as a raw
    identifier: index 1 (the item 5) is handed on as 0, the position of the
    raw identifier 1, and index 0 as -1. *)
Example integer_ids_reencoded :
  ∃ (m : RecommendationSystem (canned_library (Ok [0; 1]))) T uidxs,
    train_model _ 0 integer_items = Ok m
    ∧ classes_ (item_encoder m) = [LInt 1; LInt 5]
    ∧ evaluate_inputs _ m integer_items 10 = Ok (T, [[(-1)%Z; 0%Z]], uidxs).
Proof.
  eexists. eexists. eexists.
  split; [vm_compute; reflexivity|]. split; vm_compute; reflexivity.
Qed.

(** C9. In evaluate_model each recommended item index reaches the metric
    computation as something other than -1 only if that integer is itself
    a member of the raw item vocabulary (it is then replaced by the
    position of that raw identifier), and as -1 otherwise; in particular,
    when the raw item identifiers of the training set are strings, every
    entry of every list handed to the metric functions is -1.  The lists
    [ids] below are the ones evaluate_model passes, with the held-out
    matrix and the user indices, to each of the three metric functions. *)
Theorem recommendations_reencoded_as_raw_ids (L : Library)
    (self : NewRecommendationSystem) (ambient : Z) (train test : DataFrame)
    (m : RecommendationSystem L) (k : Z) (T : csr_matrix)
    (ids : list (list Z)) (uidxs : list nat) :
  RecommendationSystem.fit L self ambient train = Ok m →
  evaluate_inputs L m test k = Ok (T, ids, uidxs) →
  evaluate_model L m test k
  = (precision ← precision_at_k L T ids uidxs k;
     map_score ← mean_average_precision_at_k L T ids uidxs k;
     ndcg ← ndcg_at_k L T ids uidxs k;
     Ok (MkReport precision map_score ndcg))
  ∧ ∃ all_recommendations,
    py_mapM (recommend_for_eval L m k) (pd_unique (user_id <$> test))
    = Ok all_recommendations
    ∧ ids = fmap (M:=list) (item_id_of (classes_ (item_encoder m)))
              <$> all_recommendations
    ∧ (∀ item,
         item_id_of (classes_ (item_encoder m)) item ≠ (-1)%Z
         ↔ LInt (Z.of_nat item) ∈ classes_ (item_encoder m))
    ∧ (∀ item i,
         classes_ (item_encoder m) !! i = Some (LInt (Z.of_nat item)) →
         item_id_of (classes_ (item_encoder m)) item = Z.of_nat i)
    ∧ (Forall (λ r, is_str (parent_asin r) = true) train →
       Forall (Forall (λ id, id = (-1)%Z)) ids).
Proof.
  intros Hfit Hin.
  split; [unfold evaluate_model; by rewrite Hin|].
  apply evaluate_inputs_inv in Hin as (recs & _ & _ & Hrecs & ->).
  apply fit_inv in Hfit as (_ & _ & _ & Hie & _).
  pose proof (fit_classes _ _ Hie) as Hcl.
  exists recs. split; [done|]. split; [done|].
  split; [intros item; apply item_id_of_member|]. split.
  - intros item i Hl. apply item_id_of_lookup; [done|].
    rewrite Hcl. apply sorted_NoDup, np_unique_sorted.
  - intros Hstr.
    assert (Hcs : Forall (λ c, is_str c = true) (classes_ (item_encoder m))).
    { apply Forall_forall. intros c Hc. rewrite Hcl in Hc.
      apply elem_of_np_unique, list_elem_of_fmap in Hc as (r & -> & Hr).
      by apply (proj1 (Forall_forall _ _) Hstr). }
    apply Forall_fmap, Forall_forall. intros l _.
    apply Forall_fmap, Forall_forall. intros item _. simpl.
    by apply item_id_of_strings.
Qed.

Lemma recommendations_reencoded_as_raw_ids_witness :
  ∃ (m : RecommendationSystem (canned_library (Ok [0; 1])))
    (T : csr_matrix) (uidxs : list nat),
    train_model _ 0 two_items_one_user = Ok m
    ∧ evaluate_inputs _ m two_items_one_user 10
      = Ok (T, [[(-1)%Z; (-1)%Z]], uidxs)
    ∧ evaluate_model _ m two_items_one_user 10
      = (precision ←
           precision_at_k (canned_library (Ok [0; 1])) T
             [[(-1)%Z; (-1)%Z]] uidxs 10;
         map_score ←
           mean_average_precision_at_k (canned_library (Ok [0; 1])) T
             [[(-1)%Z; (-1)%Z]] uidxs 10;
         ndcg ←
           ndcg_at_k (canned_library (Ok [0; 1])) T
             [[(-1)%Z; (-1)%Z]] uidxs 10;
         Ok (MkReport precision map_score ndcg))
    ∧ ∃ all_recommendations,
        py_mapM (recommend_for_eval _ m 10)
          (pd_unique (user_id <$> two_items_one_user))
        = Ok all_recommendations
        ∧ [[(-1)%Z; (-1)%Z]]
          = fmap (M:=list) (item_id_of (classes_ (item_encoder m)))
              <$> all_recommendations
        ∧ (∀ item,
             item_id_of (classes_ (item_encoder m)) item ≠ (-1)%Z
             ↔ LInt (Z.of_nat item) ∈ classes_ (item_encoder m))
        ∧ (∀ item i,
             classes_ (item_encoder m) !! i = Some (LInt (Z.of_nat item)) →
             item_id_of (classes_ (item_encoder m)) item = Z.of_nat i)
        ∧ (Forall (λ r, is_str (parent_asin r) = true) two_items_one_user →
           Forall (Forall (λ id, id = (-1)%Z)) [[(-1)%Z; (-1)%Z]]).
Proof.
  eexists. eexists. eexists.
  split; [vm_compute; reflexivity|]. split; [vm_compute; reflexivity|].
  eapply (recommendations_reencoded_as_raw_ids (canned_library (Ok [0; 1]))
            RecommendationSystem.init_default 0 two_items_one_user
            two_items_one_user _ 10).
  - vm_compute. reflexivity.
  - vm_compute. reflexivity.
Defined.

Lemma pair_sum_swap (rows cols : list nat) (data : list Z) u i :
  pair_sum (zip (zip rows cols) data) u i
  = pair_sum (zip (zip cols rows) data) i u.
Proof.
  unfold pair_sum. revert cols data.
  induction rows as [|a rows IH]; intros [|b cols] [|d data]; simpl;
    try done.
  rewrite !filter_cons. simpl.
  destruct (decide ((a, b) = (u, i))) as [Hab|Hab],
           (decide ((b, a) = (i, u))) as [Hba|Hba].
  - rewrite !fmap_cons. simpl. f_equal. apply IH.
  - exfalso. apply Hba. by injection Hab as -> ->.
  - exfalso. apply Hab. by injection Hba as -> ->.
  - apply IH.
Qed.

Lemma test_user_item_inv L (m : RecommendationSystem L) test users items :
  LabelEncoder.transform (user_encoder m) (user_id <$> test) = Ok users →
  LabelEncoder.transform (item_encoder m) (parent_asin <$> test) = Ok items →
  test_user_item L m test = csr_matrix_coo (rating <$> test) users items
  ∧ heldout_item_user m test = csr_matrix_coo (rating <$> test) items users.
Proof.
  intros Hu Hi. unfold test_user_item, heldout_item_user.
  by rewrite Hu, Hi.
Qed.

(** C2, as stated, fails: on a table of one user and two items the
    evaluator's matrix has one row and two columns, while the training
    matrix, and the held-out matrix in the orientation of training, have
    two rows and one column. *)
Lemma heldout_matrix_not_item_by_user :
  ∃ (m : RecommendationSystem (canned_library (Ok []))) (T M : csr_matrix),
    train_model _ 0 two_items_one_user = Ok m
    ∧ test_user_item _ m two_items_one_user = Ok T
    ∧ heldout_item_user m two_items_one_user = Ok M
    ∧ shape (item_user_data m) = (2, 1)
    ∧ shape M = (2, 1)
    ∧ shape T = (1, 2)
    ∧ T ≠ M.
Proof.
  eexists. eexists. eexists.
  split; [vm_compute; reflexivity|].
  split; [vm_compute; reflexivity|].
  split; [vm_compute; reflexivity|].
  split; [reflexivity|]. split; [reflexivity|]. split; [reflexivity|].
  intros H. apply (f_equal shape) in H. cbn in H. discriminate H.
Qed.

(** C2, amended. For every held-out table whose ids all lie in the fitted
    vocabularies, the evaluator builds the held-out matrix with the same
    fitted encoders but with rows indexed by encoded user index and columns
    by encoded item index: cell (u,i) is the sum of the held-out ratings of
    user u for item i, and the matrix is the transpose of the one the
    orientation of training would give.  (Only the empty table builds no
    matrix.) *)
Theorem heldout_matrix_is_user_by_item (L : Library)
    (m : RecommendationSystem L) (test : DataFrame) :
  (∀ r, r ∈ test →
        user_id r ∈ classes_ (user_encoder m)
        ∧ parent_asin r ∈ classes_ (item_encoder m)) →
  ∃ users items,
    LabelEncoder.transform (user_encoder m) (user_id <$> test) = Ok users
    ∧ LabelEncoder.transform (item_encoder m) (parent_asin <$> test)
      = Ok items
    ∧ test_user_item L m test = csr_matrix_coo (rating <$> test) users items
    ∧ match test_user_item L m test, heldout_item_user m test with
      | Ok T, Ok M =>
          shape T = ((shape M).2, (shape M).1)
          ∧ (∀ u i, entry T u i = entry M i u)
          ∧ (∀ u i, entry T u i
                    = pair_sum (zip (zip users items) (rating <$> test)) u i)
      | Raise _, Raise _ => test = []
      | _, _ => False
      end.
Proof.
  intros Hvoc.
  destruct (transform_total (user_encoder m) (user_id <$> test))
    as [users Hu].
  { intros v (r & -> & Hr)%list_elem_of_fmap. by apply Hvoc. }
  destruct (transform_total (item_encoder m) (parent_asin <$> test))
    as [items Hi].
  { intros v (r & -> & Hr)%list_elem_of_fmap. by apply Hvoc. }
  exists users, items. split; [done|]. split; [done|].
  destruct (test_user_item_inv L m test users items Hu Hi) as [HT HM].
  split; [done|]. rewrite HT, HM.
  pose proof (Forall2_length _ _ _ (py_mapM_Forall2 _ _ _ Hu)) as Hlu.
  pose proof (Forall2_length _ _ _ (py_mapM_Forall2 _ _ _ Hi)) as Hli.
  rewrite length_fmap in Hlu, Hli.
  destruct test as [|r test].
  { apply transform_nil_inv' in Hu as ->. by destruct items. }
  destruct (csr_matrix_coo (rating <$> r :: test) users items)
    as [T|e] eqn:HTe.
  - apply csr_matrix_coo_Ok in HTe as (_ & Hl1 & Hl2 & HsT & HTt).
    destruct (csr_matrix_coo (rating <$> r :: test) items users)
      as [M|e] eqn:HMe.
    + apply csr_matrix_coo_Ok in HMe as (_ & _ & _ & HsM & HMt).
      split; [by rewrite HsT, HsM|].
      split.
      * intros u i.
        rewrite (csr_of_triples_entry _ _ u i HTt),
          (csr_of_triples_entry _ _ i u HMt).
        apply pair_sum_swap.
      * intros u i. by apply csr_of_triples_entry.
    + unfold csr_matrix_coo in HMe.
      rewrite decide_True in HMe by done.
      destruct items, users; simplify_eq/=.
  - unfold csr_matrix_coo in HTe. rewrite length_fmap in HTe.
    rewrite decide_True in HTe by (simpl in *; lia).
    destruct items, users; simplify_eq/=.
Qed.

Lemma heldout_matrix_is_user_by_item_witness :
  ∃ (m : RecommendationSystem (canned_library (Ok []))),
    train_model _ 0 scenario_train = Ok m
    ∧ ∃ users items,
        LabelEncoder.transform (user_encoder m) (user_id <$> scenario_heldout)
        = Ok users
        ∧ LabelEncoder.transform (item_encoder m)
            (parent_asin <$> scenario_heldout) = Ok items
        ∧ test_user_item _ m scenario_heldout
          = csr_matrix_coo (rating <$> scenario_heldout) users items
        ∧ match test_user_item _ m scenario_heldout,
                heldout_item_user m scenario_heldout with
          | Ok T, Ok M =>
              shape T = ((shape M).2, (shape M).1)
              ∧ (∀ u i, entry T u i = entry M i u)
              ∧ (∀ u i, entry T u i
                        = pair_sum
                            (zip (zip users items)
                               (rating <$> scenario_heldout)) u i)
          | Raise _, Raise _ => scenario_heldout = []
          | _, _ => False
          end.
Proof.
  eexists. split; [vm_compute; reflexivity|].
  apply (heldout_matrix_is_user_by_item (canned_library (Ok [])) _
           scenario_heldout).
  intros r Hr. apply list_elem_of_singleton in Hr as ->. cbn.
  split.
  - apply elem_of_cons. right. apply elem_of_cons. by left.
  - do 2 (apply elem_of_cons; right). apply elem_of_cons. by left.
Defined.

(** * Further properties of the code *)

(** ** The encoder: errors and round trips *)

Lemma py_mapM_cases {A B} (f : A → pyresult B) (l : list A) :
  match py_mapM f l with
  | Ok ys => Forall2 (λ x y, f x = Ok y) l ys
  | Raise e => ∃ x, x ∈ l ∧ f x = Raise e
  end.
Proof.
  induction l as [|x l IH]; simpl; [constructor|].
  destruct (f x) as [y|e] eqn:Hx; simpl.
  - destruct (py_mapM f l) as [ys|e]; simpl.
    + by constructor.
    + destruct IH as (z & Hz & He). exists z. split; [|done].
      apply elem_of_cons. by right.
  - exists x. split; [apply elem_of_cons; by left|done].
Qed.

(** X1. transform never maps an unknown value: it answers, for each value,
    the position where the table of classes holds that value, and it
    raises, always a ValueError, exactly when some value of its input is
    not in the table. *)
Theorem transform_answers_or_rejects (enc : LabelEncoder) (y : list label) :
  match LabelEncoder.transform enc y with
  | Ok codes =>
      Forall2 (λ v c, classes_ enc !! c = Some v) y codes
      ∧ Forall (λ v, v ∈ classes_ enc) y
  | Raise e => e = ValueError ∧ ∃ v, v ∈ y ∧ v ∉ classes_ enc
  end.
Proof.
  unfold LabelEncoder.transform.
  pose proof (py_mapM_cases (LabelEncoder.encode1 enc) y) as H.
  destruct (py_mapM (LabelEncoder.encode1 enc) y) as [codes|e].
  - split.
    + eapply Forall2_impl; [exact H|]. intros v c.
      apply encode1_Ok_lookup.
    + apply Forall_forall. intros v Hv.
      apply list_elem_of_lookup in Hv as [k Hk].
      destruct (Forall2_lookup_l _ _ _ _ _ H Hk) as (c & _ & Hc).
      apply encode1_Ok_lookup in Hc. by eapply list_elem_of_lookup_2.
  - destruct H as (v & Hv & He). unfold LabelEncoder.encode1 in He.
    destruct (index_of v (classes_ enc)) eqn:Hi; [done|].
    injection He as <-. split; [done|]. exists v. split; [done|].
    by apply index_of_None.
Qed.

(** X2. inverse_transform answers the class stored at each index and
    raises, always a ValueError, exactly when some index lies beyond the
    table of classes. *)
Theorem inverse_transform_answers_or_rejects (enc : LabelEncoder)
    (idxs : list nat) :
  match LabelEncoder.inverse_transform enc idxs with
  | Ok vs =>
      Forall2 (λ i v, classes_ enc !! i = Some v) idxs vs
      ∧ Forall (λ i, i < length (classes_ enc)) idxs
  | Raise e =>
      e = ValueError ∧ ∃ i, i ∈ idxs ∧ length (classes_ enc) ≤ i
  end.
Proof.
  unfold LabelEncoder.inverse_transform.
  pose proof (py_mapM_cases (LabelEncoder.decode1 enc) idxs) as H.
  assert (Hd : ∀ i v, LabelEncoder.decode1 enc i = Ok v →
                      classes_ enc !! i = Some v).
  { intros i v. unfold LabelEncoder.decode1.
    destruct (classes_ enc !! i); [|done]. by intros [= <-]. }
  destruct (py_mapM (LabelEncoder.decode1 enc) idxs) as [vs|e].
  - split.
    + eapply Forall2_impl; [exact H|]. exact Hd.
    + apply Forall_forall. intros i Hi.
      apply list_elem_of_lookup in Hi as [k Hk].
      destruct (Forall2_lookup_l _ _ _ _ _ H Hk) as (v & _ & Hv).
      apply Hd in Hv. by eapply lookup_lt_Some.
  - destruct H as (i & Hi & He). unfold LabelEncoder.decode1 in He.
    destruct (classes_ enc !! i) eqn:Hl; [done|].
    injection He as <-. split; [done|]. exists i. split; [done|].
    by apply lookup_ge_None.
Qed.

Lemma fit_classes_NoDup vs enc :
  LabelEncoder.fit vs = Ok enc → NoDup (classes_ enc).
Proof.
  intros H. rewrite (fit_classes vs enc H).
  apply sorted_NoDup, np_unique_sorted.
Qed.

(** X3. On a fitted encoder decoding then encoding is the identity on
    every index below the number of classes:
    transform(inverse_transform([i])) == [i]. *)
Theorem decode_encode_round_trip (vs : list label) (enc : LabelEncoder)
    (i : nat) :
  LabelEncoder.fit vs = Ok enc →
  i < length (classes_ enc) →
  LabelEncoder.inverse_transform enc [i] ≫= LabelEncoder.transform enc
  = Ok [i].
Proof.
  intros Hfit Hi.
  destruct (lookup_lt_is_Some_2 (classes_ enc) i Hi) as [v Hv].
  rewrite (inverse_transform_singleton enc v i Hv). simpl.
  apply transform_singleton. unfold LabelEncoder.encode1.
  by rewrite (index_of_NoDup_lookup v (classes_ enc) i
                (fit_classes_NoDup vs enc Hfit) Hv).
Qed.

Lemma decode_encode_round_trip_witness :
  LabelEncoder.inverse_transform (MkLabelEncoder [LStr "u1"; LStr "u2"]) [1]
    ≫= LabelEncoder.transform (MkLabelEncoder [LStr "u1"; LStr "u2"])
  = Ok [1].
Proof.
  apply (decode_encode_round_trip [LStr "u2"; LStr "u1"; LStr "u2"]).
  - reflexivity.
  - simpl. lia.
Defined.

Lemma np_unique_ext y y' :
  (∀ v, v ∈ y ↔ v ∈ y') → np_unique y = np_unique y'.
Proof.
  intros Hy.
  apply (StronglySorted_unique_strong label_lt).
  - intros a b _ _ Hab Hba. by destruct (label_lt_asym a b).
  - apply np_unique_sorted.
  - apply np_unique_sorted.
  - apply NoDup_Permutation.
    + apply sorted_NoDup, np_unique_sorted.
    + apply sorted_NoDup, np_unique_sorted.
    + intros v. by rewrite !elem_of_np_unique.
Qed.

Lemma homogeneous_ext y y' :
  (∀ v, v ∈ y ↔ v ∈ y') → homogeneous y = homogeneous y'.
Proof.
  intros Hy. unfold homogeneous.
  assert (Hf : ∀ (p : label → bool) (l l' : list label),
             (∀ v, v ∈ l ↔ v ∈ l') → forallb p l = forallb p l').
  { intros p l l' Hl. apply eq_true_iff_eq.
    rewrite !forallb_forall. setoid_rewrite <- list_elem_of_In.
    split; intros H v Hv; apply H; by apply Hl. }
  by rewrite (Hf is_str y y' Hy), (Hf (λ v, negb (is_str v)) y y' Hy).
Qed.

(** X4. The fitted encoder depends only on the set of values of its
    input: two sequences with the same values, in any order and with any
    repetitions, give the same table of classes (or are refused alike). *)
Theorem fit_depends_on_value_set (y y' : list label) :
  (∀ v, v ∈ y ↔ v ∈ y') →
  LabelEncoder.fit y = LabelEncoder.fit y'.
Proof.
  intros Hy. unfold LabelEncoder.fit.
  by rewrite (homogeneous_ext y y' Hy), (np_unique_ext y y' Hy).
Qed.

Lemma fit_depends_on_value_set_witness :
  LabelEncoder.fit [LStr "b"; LStr "a"; LStr "b"]
  = LabelEncoder.fit [LStr "a"; LStr "b"].
Proof.
  apply fit_depends_on_value_set. intros v.
  rewrite !elem_of_cons, !elem_of_nil. tauto.
Defined.

Lemma fit_transform_inv y enc codes :
  LabelEncoder.fit_transform y = Ok (enc, codes) →
  LabelEncoder.fit y = Ok enc ∧ LabelEncoder.transform enc y = Ok codes.
Proof.
  unfold LabelEncoder.fit_transform.
  destruct (LabelEncoder.fit y) as [enc'|e]; [|done]. simpl.
  destruct (LabelEncoder.transform enc' y) as [codes'|e] eqn:Ht; [|done].
  simpl. intros [= <- <-]. by split.
Qed.

(** X5. fit_transform gives dense zero-based codes: one code per input
    value, every code below the number of classes, every index below the
    number of classes used by some input value, and as many classes as the
    input has distinct values. *)
Theorem fit_transform_codes_dense (y : list label) (enc : LabelEncoder)
    (codes : list nat) :
  LabelEncoder.fit_transform y = Ok (enc, codes) →
  length codes = length y
  ∧ length (classes_ enc) = length (remove_dups y)
  ∧ (∀ c, c ∈ codes ↔ c < length (classes_ enc)).
Proof.
  intros [Hfit Htr]%fit_transform_inv.
  pose proof (fit_classes y enc Hfit) as Hcl.
  pose proof (py_mapM_Forall2 _ _ _ Htr) as Hf.
  split; [symmetry; by eapply Forall2_length|].
  split; [by rewrite Hcl, (np_unique_remove_dups y)|].
  intros c. split.
  - intros Hc. apply list_elem_of_lookup in Hc as [k Hk].
    destruct (Forall2_lookup_r _ _ _ _ _ Hf Hk) as (v & _ & Hv).
    apply encode1_Ok_lookup in Hv. by eapply lookup_lt_Some.
  - intros Hc.
    destruct (lookup_lt_is_Some_2 (classes_ enc) c Hc) as [v Hv].
    assert (Hin : v ∈ y).
    { apply elem_of_np_unique. rewrite <- Hcl.
      by eapply list_elem_of_lookup_2. }
    apply list_elem_of_lookup in Hin as [k Hk].
    destruct (Forall2_lookup_l _ _ _ _ _ Hf Hk) as (c' & Hc' & Hvc).
    unfold LabelEncoder.encode1 in Hvc.
    rewrite (index_of_NoDup_lookup v (classes_ enc) c
               (fit_classes_NoDup y enc Hfit) Hv) in Hvc.
    injection Hvc as <-. by eapply list_elem_of_lookup_2.
Qed.

Lemma fit_transform_codes_dense_witness :
  length [1; 0; 1] = length [LStr "b"; LStr "a"; LStr "b"]
  ∧ length (classes_ (MkLabelEncoder [LStr "a"; LStr "b"]))
    = length (remove_dups [LStr "b"; LStr "a"; LStr "b"])
  ∧ (∀ c, c ∈ [1; 0; 1]
          ↔ c < length (classes_ (MkLabelEncoder [LStr "a"; LStr "b"]))).
Proof.
  apply (fit_transform_codes_dense [LStr "b"; LStr "a"; LStr "b"]).
  reflexivity.
Defined.

(** ** [fit]: errors, content of the matrix, order of the rows *)

Lemma transform_code_of enc y :
  (∀ v, v ∈ y → v ∈ classes_ enc) →
  LabelEncoder.transform enc y = Ok (code_of (classes_ enc) <$> y).
Proof.
  intros Hy. apply py_mapM_Ok. intros v Hv.
  unfold LabelEncoder.encode1, code_of.
  destruct (index_of_elem v (classes_ enc) (Hy v Hv)) as [i ->]. done.
Qed.

Lemma fit_transform_homogeneous y :
  homogeneous y = true →
  LabelEncoder.fit_transform y
  = Ok (MkLabelEncoder (np_unique y), code_of (np_unique y) <$> y).
Proof.
  intros Hh. unfold LabelEncoder.fit_transform, LabelEncoder.fit.
  rewrite Hh. simpl.
  rewrite (transform_code_of (MkLabelEncoder (np_unique y)) y); [done|].
  intros v Hv. by apply elem_of_np_unique.
Qed.

Lemma fit_transform_mixed y :
  homogeneous y = false →
  LabelEncoder.fit_transform y = Raise TypeError.
Proof.
  intros Hh. unfold LabelEncoder.fit_transform, LabelEncoder.fit.
  by rewrite Hh.
Qed.

Lemma zip3_fmap {A} (f g : A → nat) (h : A → Z) (l : list A) :
  zip (zip (f <$> l) (g <$> l)) (h <$> l) = (λ r, (f r, g r, h r)) <$> l.
Proof. induction l as [|x l IH]; [done|]. csimpl. by rewrite IH. Qed.

(** What [fit] computes on a table whose two identifier columns are each
    of one kind. *)
Lemma fit_unfold L self ambient df :
  homogeneous (user_id <$> df) = true →
  homogeneous (parent_asin <$> df) = true →
  RecommendationSystem.fit L self ambient df
  = (M ← csr_of_triples (fit_triples df);
     st ← als_fit L (new_model self)
            (initial_seed (new_model self) ambient) M;
     Ok (MkRS (new_model self) st
           (MkLabelEncoder (np_unique (user_id <$> df)))
           (MkLabelEncoder (np_unique (parent_asin <$> df)))
           M (als_item_factors L st))).
Proof.
  intros Hu Hi. unfold RecommendationSystem.fit.
  rewrite (fit_transform_homogeneous _ Hu),
    (fit_transform_homogeneous _ Hi).
  simpl. unfold csr_matrix_coo. rewrite !length_fmap.
  rewrite decide_True by done.
  rewrite <- !list_fmap_compose.
  rewrite (zip3_fmap
             (code_of (np_unique (parent_asin <$> df)) ∘ parent_asin)
             (code_of (np_unique (user_id <$> df)) ∘ user_id) rating df).
  done.
Qed.

Lemma fit_mixed L self ambient df :
  homogeneous (user_id <$> df) = false
  ∨ homogeneous (parent_asin <$> df) = false →
  RecommendationSystem.fit L self ambient df = Raise TypeError.
Proof.
  unfold RecommendationSystem.fit.
  destruct (homogeneous (user_id <$> df)) eqn:Hu.
  - intros [?|Hi]; [done|].
    rewrite (fit_transform_homogeneous _ Hu),
      (fit_transform_mixed _ Hi). done.
  - intros _. by rewrite (fit_transform_mixed _ Hu).
Qed.

(** X6. fit fails before the solver is reached in exactly two ways: a
    TypeError when the user column or the item column mixes numbers and
    strings, and a ValueError when the table is empty.  On any other table
    the encoding and the matrix cannot fail: the outcome of fit is the
    outcome of the solver on a matrix with one row per distinct item and
    one column per distinct user. *)
Theorem fit_failures (L : Library) (self : NewRecommendationSystem)
    (ambient : Z) (df : DataFrame) :
  (homogeneous (user_id <$> df) = false
   ∨ homogeneous (parent_asin <$> df) = false →
   RecommendationSystem.fit L self ambient df = Raise TypeError)
  ∧ (df = [] →
     RecommendationSystem.fit L self ambient df = Raise ValueError)
  ∧ (df ≠ [] →
     homogeneous (user_id <$> df) = true →
     homogeneous (parent_asin <$> df) = true →
     ∃ M, shape M = (length (remove_dups (parent_asin <$> df)),
                     length (remove_dups (user_id <$> df)))
       ∧ RecommendationSystem.fit L self ambient df
         = (st ← als_fit L (new_model self)
                   (initial_seed (new_model self) ambient) M;
            Ok (MkRS (new_model self) st
                  (MkLabelEncoder (np_unique (user_id <$> df)))
                  (MkLabelEncoder (np_unique (parent_asin <$> df)))
                  M (als_item_factors L st)))).
Proof.
  split; [|split].
  - apply fit_mixed.
  - intros ->. reflexivity.
  - intros Hne Hu Hi. rewrite (fit_unfold L self ambient df Hu Hi).
    destruct (csr_of_triples (fit_triples df)) as [M|e] eqn:HM.
    + exists M. split; [|done].
      apply csr_of_triples_Ok in HM as (_ & Hs & _).
      assert (Hfi := fit_transform_homogeneous _ Hi).
      assert (Hfu := fit_transform_homogeneous _ Hu).
      apply fit_transform_inv in Hfi as [Hfi Hti].
      apply fit_transform_inv in Hfu as [Hfu Htu].
      rewrite Hs. unfold fit_triples.
      rewrite <- !list_fmap_compose.
      rewrite <- !(np_unique_remove_dups _).
      f_equal.
      * change (length (np_unique (parent_asin <$> df)))
          with (length (classes_
                          (MkLabelEncoder (np_unique (parent_asin <$> df))))).
        rewrite <- (fit_transform_codes _ _ _ Hfi Hti)
          by (by destruct df).
        by rewrite <- list_fmap_compose.
      * change (length (np_unique (user_id <$> df)))
          with (length (classes_
                          (MkLabelEncoder (np_unique (user_id <$> df))))).
        rewrite <- (fit_transform_codes _ _ _ Hfu Htu)
          by (by destruct df).
        by rewrite <- list_fmap_compose.
    + destruct df; [done|]. discriminate HM.
Qed.

Lemma code_of_iff classes v i it :
  NoDup classes → classes !! i = Some it → v ∈ classes →
  code_of classes v = i ↔ v = it.
Proof.
  intros Hnd Hit Hv. unfold code_of.
  destruct (index_of_elem v classes Hv) as [k Hk]. rewrite Hk. simpl.
  split.
  - intros ->. apply index_of_lookup in Hk. congruence.
  - intros ->. rewrite (index_of_NoDup_lookup it classes i Hnd Hit) in Hk.
    by injection Hk.
Qed.

Lemma pair_sum_encoded (ci cu : list label) (df : DataFrame) i j it u :
  NoDup ci → NoDup cu →
  ci !! i = Some it → cu !! j = Some u →
  (∀ r, r ∈ df → parent_asin r ∈ ci ∧ user_id r ∈ cu) →
  pair_sum ((λ r, (code_of ci (parent_asin r), code_of cu (user_id r),
                   rating r)) <$> df) i j
  = pair_weight df it u.
Proof.
  intros Hni Hnu Hit Hu. unfold pair_sum, pair_weight.
  induction df as [|r df IH]; intros Hdf; [done|].
  destruct (Hdf r) as [Hri Hru]; [apply elem_of_cons; by left|].
  assert (IH' := IH (λ r' Hr',
                       Hdf r' (proj2 (elem_of_cons df r' r) (or_intror Hr')))).
  rewrite fmap_cons.
  pose proof (code_of_iff ci (parent_asin r) i it Hni Hit Hri) as Hi1.
  pose proof (code_of_iff cu (user_id r) j u Hnu Hu Hru) as Hj1.
  destruct (decide (parent_asin r = it ∧ user_id r = u)) as [Hyes|Hno].
  - rewrite (filter_cons_True (λ t : triple, t.1 = (i, j))).
    2:{ simpl. f_equal; tauto. }
    rewrite (filter_cons_True (λ r, parent_asin r = it ∧ user_id r = u))
      by done.
    rewrite !fmap_cons. unfold sum_Z in *. simpl. by rewrite IH'.
  - rewrite (filter_cons_False (λ t : triple, t.1 = (i, j))).
    2:{ simpl. intros [= H1 H2]. tauto. }
    rewrite (filter_cons_False (λ r, parent_asin r = it ∧ user_id r = u))
      by done.
    exact IH'.
Qed.

(** The triples behind the matrix of a fitted system, written with the
    encoders the system holds. *)
Lemma fit_encoded_triples L self ambient train (m : RecommendationSystem L) :
  RecommendationSystem.fit L self ambient train = Ok m →
  NoDup (classes_ (item_encoder m))
  ∧ NoDup (classes_ (user_encoder m))
  ∧ (∀ r, r ∈ train →
          parent_asin r ∈ classes_ (item_encoder m)
          ∧ user_id r ∈ classes_ (user_encoder m))
  ∧ csr_of_triples
      ((λ r, (code_of (classes_ (item_encoder m)) (parent_asin r),
              code_of (classes_ (user_encoder m)) (user_id r),
              rating r)) <$> train)
    = Ok (item_user_data m).
Proof.
  intros (users & items & Hue & Hie & Hus & His & HM & _ & _)%fit_inv.
  pose proof (fit_classes _ _ Hue) as Hcu.
  pose proof (fit_classes _ _ Hie) as Hci.
  assert (Hvoc : ∀ r, r ∈ train →
            parent_asin r ∈ classes_ (item_encoder m)
            ∧ user_id r ∈ classes_ (user_encoder m)).
  { intros r Hr. rewrite Hci, Hcu. split; apply elem_of_np_unique;
      apply list_elem_of_fmap; by exists r. }
  split; [by eapply fit_classes_NoDup|].
  split; [by eapply fit_classes_NoDup|].
  split; [done|].
  rewrite transform_code_of in Hus.
  2:{ intros v (r & -> & Hr)%list_elem_of_fmap. by apply Hvoc. }
  rewrite transform_code_of in His.
  2:{ intros v (r & -> & Hr)%list_elem_of_fmap. by apply Hvoc. }
  injection Hus as <-. injection His as <-.
  apply csr_matrix_coo_Ok in HM as (_ & _ & _ & _ & HM).
  rewrite <- !list_fmap_compose in HM.
  by rewrite (zip3_fmap
                (code_of (classes_ (item_encoder m)) ∘ parent_asin)
                (code_of (classes_ (user_encoder m)) ∘ user_id)
                rating train) in HM.
Qed.

(** With whole-number ratings, the cell at the row of an item and the
    column of a user is the sum of the ratings of that pair. *)
Lemma fit_matrix_cell (L : Library) (self : NewRecommendationSystem)
    (ambient : Z) (train : DataFrame) (m : RecommendationSystem L)
    (i j : nat) (it u : label) :
  RecommendationSystem.fit L self ambient train = Ok m →
  classes_ (item_encoder m) !! i = Some it →
  classes_ (user_encoder m) !! j = Some u →
  csr_get (item_user_data m) i j = Ok (pair_weight train it u).
Proof.
  intros Hfit Hit Hu.
  pose proof (fit_shape L self ambient train m Hfit) as Hshape.
  pose proof (fit_encoded_triples L self ambient train m Hfit)
    as (Hni & Hnu & Hvoc & HM).
  unfold csr_get. rewrite decide_True.
  2:{ rewrite Hshape. simpl. split; by eapply lookup_lt_Some. }
  f_equal. rewrite (csr_of_triples_entry _ _ i j HM).
  by apply pair_sum_encoded.
Qed.

Lemma foldl_accumulate_is_Some (l : list triple) m k :
  is_Some (foldl accumulate m l !! k) ↔ is_Some (m !! k) ∨ k ∈ l.*1.
Proof.
  revert m. induction l as [|t l IH]; intros m.
  - simpl. rewrite elem_of_nil. tauto.
  - cbn [foldl]. rewrite fmap_cons, elem_of_cons, IH, accumulate_is_Some.
    split; [intros [[?|?]|?]|intros [?|[?|?]]]; auto.
Qed.

(** The cells a fitted matrix stores are the (item, user) pairs of the
    training rows, whatever the ratings. *)
Lemma fit_stored_cells L self ambient train (m : RecommendationSystem L) i j :
  RecommendationSystem.fit L self ambient train = Ok m →
  is_Some (entries (item_user_data m) !! (i, j))
  ↔ ∃ r, r ∈ train
         ∧ code_of (classes_ (item_encoder m)) (parent_asin r) = i
         ∧ code_of (classes_ (user_encoder m)) (user_id r) = j.
Proof.
  intros (_ & _ & _ & HM)%fit_encoded_triples.
  apply csr_of_triples_Ok in HM as (_ & _ & ->).
  rewrite foldl_accumulate_is_Some, lookup_empty.
  rewrite <- list_fmap_compose, list_elem_of_fmap. split.
  - intros [[? [=]]|(r & Heq & Hr)]. exists r. simpl in Heq.
    injection Heq as -> ->. done.
  - intros (r & Hr & <- & <-). right. by exists r.
Qed.

(** X7. The structure of the fitted system does not depend on the order
    of the training rows: on two tables that are permutations of each
    other, two successful fits hold the same user encoder, the same item
    encoder, a matrix of the same shape and the same set of stored cells.
    (The values of the cells, sums in row order, are no part of this.) *)
Theorem fit_row_order_structure (L : Library)
    (self self' : NewRecommendationSystem) (ambient ambient' : Z)
    (df df' : DataFrame) (m m' : RecommendationSystem L) :
  df ≡ₚ df' →
  RecommendationSystem.fit L self ambient df = Ok m →
  RecommendationSystem.fit L self' ambient' df' = Ok m' →
  user_encoder m = user_encoder m'
  ∧ item_encoder m = item_encoder m'
  ∧ shape (item_user_data m) = shape (item_user_data m')
  ∧ ∀ i j, is_Some (entries (item_user_data m) !! (i, j))
           ↔ is_Some (entries (item_user_data m') !! (i, j)).
Proof.
  intros Hp Hfit Hfit'.
  pose proof (fit_inv _ _ _ _ _ Hfit) as (_ & _ & Hue & Hie & _).
  pose proof (fit_inv _ _ _ _ _ Hfit') as (_ & _ & Hue' & Hie' & _).
  assert (Hu : user_encoder m = user_encoder m').
  { unfold LabelEncoder.fit in Hue, Hue'.
    rewrite (homogeneous_ext (user_id <$> df) (user_id <$> df')) in Hue
      by (intros v; by rewrite Hp).
    rewrite (np_unique_ext (user_id <$> df) (user_id <$> df')) in Hue
      by (intros v; by rewrite Hp).
    congruence. }
  assert (Hi : item_encoder m = item_encoder m').
  { unfold LabelEncoder.fit in Hie, Hie'.
    rewrite (homogeneous_ext (parent_asin <$> df) (parent_asin <$> df'))
      in Hie by (intros v; by rewrite Hp).
    rewrite (np_unique_ext (parent_asin <$> df) (parent_asin <$> df'))
      in Hie by (intros v; by rewrite Hp).
    congruence. }
  split; [done|]. split; [done|]. split.
  - rewrite (fit_shape _ _ _ _ _ Hfit), (fit_shape _ _ _ _ _ Hfit').
    by rewrite Hu, Hi.
  - intros i j.
    rewrite (fit_stored_cells _ _ _ _ _ i j Hfit),
      (fit_stored_cells _ _ _ _ _ i j Hfit').
    rewrite Hu, Hi. by setoid_rewrite Hp.
Qed.

Lemma fit_row_order_structure_witness :
  ∃ (m m' : RecommendationSystem (canned_library (Ok []))),
    train_model _ 0 two_items_one_user = Ok m
    ∧ train_model _ 7 (reverse two_items_one_user) = Ok m'
    ∧ user_encoder m = user_encoder m'
    ∧ item_encoder m = item_encoder m'
    ∧ shape (item_user_data m) = shape (item_user_data m')
    ∧ ∀ i j, is_Some (entries (item_user_data m) !! (i, j))
             ↔ is_Some (entries (item_user_data m') !! (i, j)).
Proof.
  eexists. eexists.
  split; [vm_compute; reflexivity|]. split; [vm_compute; reflexivity|].
  apply (fit_row_order_structure (canned_library (Ok []))
           RecommendationSystem.init_default RecommendationSystem.init_default
           0 7 two_items_one_user (reverse two_items_one_user)).
  - symmetry. apply reverse_Permutation.
  - vm_compute. reflexivity.
  - vm_compute. reflexivity.
Defined.

(** X8. The matrix a fit holds stores a cell at the row of an item and
    the column of a user exactly when some training row is of that user
    for that item; the columns listed for the row of an item are the users
    who rated it; and a pair that occurs in a single training row holds
    the rating of that row. *)
Theorem fit_cell_stored_iff_interacted (L : Library)
    (self : NewRecommendationSystem) (ambient : Z) (train : DataFrame)
    (m : RecommendationSystem L) (i j : nat) (it u : label) :
  RecommendationSystem.fit L self ambient train = Ok m →
  classes_ (item_encoder m) !! i = Some it →
  classes_ (user_encoder m) !! j = Some u →
  (is_Some (entries (item_user_data m) !! (i, j)) ↔ rated train it u)
  ∧ (∃ cols, csr_row_indices (item_user_data m) i = Ok cols
       ∧ (j ∈ cols ↔ rated train it u))
  ∧ (∀ r,
       filter (λ r, parent_asin r = it ∧ user_id r = u) train = [r] →
       csr_get (item_user_data m) i j = Ok (rating r)).
Proof.
  intros Hfit Hit Hu. unfold rated.
  pose proof (fit_shape L self ambient train m Hfit) as Hshape.
  pose proof (fit_encoded_triples L self ambient train m Hfit)
    as (Hni & Hnu & Hvoc & _).
  assert (Hst : is_Some (entries (item_user_data m) !! (i, j))
                ↔ ∃ r, r ∈ train
                       ∧ parent_asin r = it ∧ user_id r = u).
  { rewrite (fit_stored_cells L self ambient train m i j Hfit).
    split; intros (r & Hr & H1 & H2); exists r; (split; [done|]);
      destruct (Hvoc r Hr) as [Hri Hru].
    - split.
      + by apply (code_of_iff _ _ i it Hni Hit Hri).
      + by apply (code_of_iff _ _ j u Hnu Hu Hru).
    - split.
      + by apply (code_of_iff _ _ i it Hni Hit Hri).
      + by apply (code_of_iff _ _ j u Hnu Hu Hru). }
  split; [done|]. split.
  - unfold csr_row_indices. rewrite decide_True.
    2:{ rewrite Hshape. simpl. by eapply lookup_lt_Some. }
    eexists. split; [done|].
    rewrite list_elem_of_filter, elem_of_seq, Hshape. simpl.
    apply lookup_lt_Some in Hu. rewrite <- Hst. split; [tauto|].
    intros ?. split; [done|lia].
  - intros r Hr.
    rewrite (fit_matrix_cell L self ambient train m i j it u Hfit Hit Hu).
    unfold pair_weight. rewrite Hr. simpl. f_equal. lia.
Qed.

Lemma fit_cell_stored_iff_interacted_witness :
  ∃ (m : RecommendationSystem (canned_library (Ok []))),
    train_model _ 0 scenario_train = Ok m
    ∧ (is_Some (entries (item_user_data m) !! (0, 1))
       ↔ rated scenario_train (LStr "i1") (LStr "u2"))
    ∧ (∃ cols, csr_row_indices (item_user_data m) 0 = Ok cols
         ∧ (1 ∈ cols ↔ rated scenario_train (LStr "i1") (LStr "u2")))
    ∧ (∀ r,
         filter (λ r, parent_asin r = LStr "i1" ∧ user_id r = LStr "u2")
           scenario_train = [r] →
         csr_get (item_user_data m) 0 1 = Ok (rating r)).
Proof.
  eexists. split; [vm_compute; reflexivity|].
  apply (fit_cell_stored_iff_interacted (canned_library (Ok []))
           RecommendationSystem.init_default 0 scenario_train _ 0 1).
  - vm_compute. reflexivity.
  - reflexivity.
  - reflexivity.
Defined.

(** ** [recommend]: every count, and the known-user path *)

Lemma decode_NoDup (cl : list label) (idxs : list nat) (vs : list label) :
  NoDup cl → NoDup idxs →
  Forall2 (λ v i, cl !! i = Some v) vs idxs → NoDup vs.
Proof.
  intros Hcl Hnd Hf. induction Hf as [|v i vs idxs Hvi Hf IH].
  - constructor.
  - apply NoDup_cons in Hnd as [Hi Hnd]. constructor; [|by apply IH].
    intros Hv. apply list_elem_of_lookup in Hv as [k Hk].
    destruct (Forall2_lookup_l _ _ _ _ _ Hf Hk) as (i' & Hi' & Hvi').
    assert (i' = i) as -> by exact (NoDup_lookup cl i' i v Hcl Hvi' Hvi).
    apply Hi. by eapply list_elem_of_lookup_2.
Qed.

Lemma popularity_fallback_take L (m : RecommendationSystem L) (n : Z) :
  RecommendationSystem.popularity_fallback L m n
  = take (if decide (0 ≤ n)%Z then Z.to_nat n
          else length (popularity_ranking (item_user_data m))
               - Z.to_nat (- n))
      (popularity_ranking (item_user_data m)).
Proof.
  unfold RecommendationSystem.popularity_fallback, popularity_ranking,
    py_slice_to.
  case_decide; rewrite fmap_take; [done|]. by rewrite length_fmap.
Qed.

(** X10. Cold start for every count, negative ones included: for a user
    absent from the fitted user encoder recommend never raises; the list
    holds no item twice, only items of the training table, and has
    min(n, k) entries for n >= 0 and max(0, k + n) entries for n < 0,
    where k is the number of distinct training items; with n >= k it is a
    permutation of all training items. *)
Theorem cold_start_any_count (L : Library) (self : NewRecommendationSystem)
    (ambient : Z) (train : DataFrame) (m : RecommendationSystem L)
    (uid : label) (n : Z) :
  RecommendationSystem.fit L self ambient train = Ok m →
  uid ∉ classes_ (user_encoder m) →
  ∃ items : list label,
    RecommendationSystem.recommend L m uid n = Ok items
    ∧ NoDup items
    ∧ (∀ it, it ∈ items → it ∈ parent_asin <$> train)
    ∧ Z.of_nat (length items)
      = (if decide (0 ≤ n)%Z
         then Z.min n (Z.of_nat (length (classes_ (item_encoder m))))
         else Z.max 0 (Z.of_nat (length (classes_ (item_encoder m))) + n))%Z
    ∧ ((Z.of_nat (length (classes_ (item_encoder m))) ≤ n)%Z →
       items ≡ₚ classes_ (item_encoder m)).
Proof.
  intros Hfit Hu.
  pose proof (fit_shape L self ambient train m Hfit) as Hshape.
  pose proof (fit_inv L self ambient train m Hfit)
    as (_ & _ & _ & Hie & _).
  pose proof (fit_classes _ _ Hie) as Hcl.
  pose proof (fit_classes_NoDup _ _ Hie) as Hnd.
  set (cl := classes_ (item_encoder m)) in *.
  set (ranking := popularity_ranking (item_user_data m)).
  assert (Hperm : ranking ≡ₚ seq 0 (length cl)).
  { unfold ranking. rewrite popularity_ranking_perm. by rewrite Hshape. }
  assert (Hlen : length ranking = length cl).
  { by rewrite Hperm, length_seq. }
  set (k' := if decide (0 ≤ n)%Z then Z.to_nat n
             else length ranking - Z.to_nat (- n)).
  destruct (py_mapM_total (RecommendationSystem.decode_item L m)
              (take k' ranking)) as [items Hitems].
  { intros i Hi. apply subseteq_take in Hi. rewrite Hperm in Hi.
    apply elem_of_seq in Hi.
    destruct (lookup_lt_is_Some_2 cl i) as [v Hv]; [lia|].
    exists v. by apply decode_item_Ok. }
  exists items.
  assert (Hf : Forall2 (λ it i, cl !! i = Some it) items (take k' ranking)).
  { apply Forall2_flip. eapply Forall2_impl;
      [exact (py_mapM_Forall2 _ _ _ Hitems)|].
    intros i v Hv. by apply decode_item_Ok. }
  split; [|split; [|split; [|split]]].
  - unfold RecommendationSystem.recommend.
    rewrite (recommendations_unseen L m uid n Hu). simpl.
    by rewrite popularity_fallback_take.
  - apply (decode_NoDup cl (take k' ranking)); [done| |done].
    apply (sublist_NoDup _ ranking); [|apply sublist_take].
    rewrite Hperm. apply NoDup_seq.
  - intros it Hit. apply list_elem_of_lookup in Hit as [p Hp].
    destruct (Forall2_lookup_l _ _ _ _ _ Hf Hp) as (i & _ & Hi).
    apply elem_of_np_unique. fold cl in Hcl. rewrite <- Hcl.
    by eapply list_elem_of_lookup_2.
  - rewrite (Forall2_length _ _ _ Hf), length_take, Hlen.
    unfold k'. rewrite Hlen. case_decide; lia.
  - intros Hn.
    assert (Hall : take k' ranking = ranking).
    { apply take_ge. unfold k'. rewrite decide_True by lia. lia. }
    rewrite Hall in Hf.
    apply NoDup_Permutation; [|done|].
    + apply (decode_NoDup cl ranking); [done| |done].
      rewrite Hperm. apply NoDup_seq.
    + intros it. split.
      * intros Hit. apply list_elem_of_lookup in Hit as [p Hp].
        destruct (Forall2_lookup_l _ _ _ _ _ Hf Hp) as (i & _ & Hi).
        by eapply list_elem_of_lookup_2.
      * intros Hit. apply list_elem_of_lookup in Hit as [i Hi].
        assert (Hir : i ∈ ranking).
        { rewrite Hperm. apply elem_of_seq.
          apply lookup_lt_Some in Hi. lia. }
        apply list_elem_of_lookup in Hir as [p Hp].
        destruct (Forall2_lookup_r _ _ _ _ _ Hf Hp) as (it' & Hit' & Hl).
        assert (it' = it) as -> by congruence.
        by eapply list_elem_of_lookup_2.
Qed.

Lemma cold_start_any_count_witness :
  ∃ (m : RecommendationSystem (canned_library (Ok []))),
    train_model _ 0 scenario_train = Ok m
    ∧ ∃ items : list label,
        RecommendationSystem.recommend _ m (LStr "new_user") (-2) = Ok items
        ∧ NoDup items
        ∧ (∀ it, it ∈ items → it ∈ parent_asin <$> scenario_train)
        ∧ Z.of_nat (length items)
          = (if decide (0 ≤ -2)%Z
             then Z.min (-2) (Z.of_nat (length (classes_ (item_encoder m))))
             else Z.max 0
                    (Z.of_nat (length (classes_ (item_encoder m))) + -2))%Z
        ∧ ((Z.of_nat (length (classes_ (item_encoder m))) ≤ -2)%Z →
           items ≡ₚ classes_ (item_encoder m)).
Proof.
  eexists. split; [vm_compute; reflexivity|].
  apply (cold_start_any_count (canned_library (Ok []))
           RecommendationSystem.init_default 0 scenario_train _
           (LStr "new_user") (-2)).
  - vm_compute. reflexivity.
  - cbn. rewrite !not_elem_of_cons. repeat split; try discriminate.
    apply not_elem_of_nil.
Defined.

Lemma decode_item_Raise L (m : RecommendationSystem L) i e :
  RecommendationSystem.decode_item L m i = Raise e →
  e = ValueError ∧ length (classes_ (item_encoder m)) ≤ i.
Proof.
  unfold RecommendationSystem.decode_item, LabelEncoder.inverse_transform,
    LabelEncoder.decode1. simpl.
  destruct (classes_ (item_encoder m) !! i) as [c|] eqn:Hl; simpl; [done|].
  intros [= <-]. split; [done|]. by apply lookup_ge_None.
Qed.

Lemma recommendations_known_Ok L (m : RecommendationSystem L) uid n idx recs :
  index_of uid (classes_ (user_encoder m)) = Some idx →
  als_recommend L (model m) idx (item_user_data m) n true = Ok recs →
  RecommendationSystem.recommendations L m uid n = Ok (recs.*1)
  ∧ RecommendationSystem.takes_fallback L m uid n = false.
Proof.
  intros Hi Hr.
  unfold RecommendationSystem.recommendations,
    RecommendationSystem.takes_fallback.
  by rewrite (try_block_known L m uid n idx Hi), Hr.
Qed.

(** X11. Known user, engine call answered: when every item index the
    engine returns lies inside the fitted item vocabulary, recommend
    returns exactly the engine's items, decoded, in the engine's order and
    number; the list repeats no item when the engine repeats no index, and
    the popularity fallback is not taken. *)
Theorem known_user_decodes_engine_answer (L : Library)
    (self : NewRecommendationSystem) (ambient : Z) (train : DataFrame)
    (m : RecommendationSystem L) (uid : label) (n : Z) (idx : nat)
    (recs : list (nat * score L)) :
  RecommendationSystem.fit L self ambient train = Ok m →
  index_of uid (classes_ (user_encoder m)) = Some idx →
  als_recommend L (model m) idx (item_user_data m) n true = Ok recs →
  Forall (λ i, i < length (classes_ (item_encoder m))) (recs.*1) →
  ∃ items : list label,
    RecommendationSystem.recommend L m uid n = Ok items
    ∧ Forall2 (λ it i, classes_ (item_encoder m) !! i = Some it)
        items (recs.*1)
    ∧ length items = length recs
    ∧ (NoDup (recs.*1) → NoDup items)
    ∧ RecommendationSystem.takes_fallback L m uid n = false.
Proof.
  intros Hfit Hi Hr Hin.
  destruct (recommendations_known_Ok L m uid n idx recs Hi Hr) as [Hrec Hfb].
  destruct (py_mapM_total (RecommendationSystem.decode_item L m) (recs.*1))
    as [items Hitems].
  { intros i Hii. apply (proj1 (Forall_forall _ _) Hin) in Hii.
    destruct (lookup_lt_is_Some_2 _ _ Hii) as [v Hv].
    exists v. by apply decode_item_Ok. }
  assert (Hf : Forall2 (λ it i, classes_ (item_encoder m) !! i = Some it)
                 items (recs.*1)).
  { apply Forall2_flip. eapply Forall2_impl;
      [exact (py_mapM_Forall2 _ _ _ Hitems)|].
    intros i v Hv. by apply decode_item_Ok. }
  exists items. split; [|split; [done|split; [|split; [|done]]]].
  - unfold RecommendationSystem.recommend. by rewrite Hrec.
  - rewrite (Forall2_length _ _ _ Hf). by rewrite length_fmap.
  - intros Hnd.
    apply (decode_NoDup (classes_ (item_encoder m)) (recs.*1));
      [|done|done].
    apply fit_inv in Hfit as (_ & _ & _ & Hie & _).
    exact (fit_classes_NoDup _ _ Hie).
Qed.

Lemma known_user_decodes_engine_answer_witness :
  ∃ (m : RecommendationSystem (canned_library (Ok [2; 0]))),
    train_model _ 0 scenario_train = Ok m
    ∧ ∃ items : list label,
        RecommendationSystem.recommend _ m (LStr "u2") 2 = Ok items
        ∧ Forall2 (λ it i, classes_ (item_encoder m) !! i = Some it)
            items ([(2, ()); (0, ())].*1)
        ∧ length items = length [(2, ()); (0, ())]
        ∧ (NoDup ([(2, ()); (0, ())].*1) → NoDup items)
        ∧ RecommendationSystem.takes_fallback _ m (LStr "u2") 2 = false.
Proof.
  eexists. split; [vm_compute; reflexivity|].
  apply (known_user_decodes_engine_answer (canned_library (Ok [2; 0]))
           RecommendationSystem.init_default 0 scenario_train _
           (LStr "u2") 2 1 [(2, ()); (0, ())]).
  - vm_compute. reflexivity.
  - reflexivity.
  - reflexivity.
  - cbn. repeat constructor.
Defined.

(** X12. Known user, engine call answered with an item index outside the
    fitted item vocabulary: the decoding after the try raises a
    ValueError, and this one reaches the caller; the handler of the try
    does not cover it and no fallback list is returned. *)
Theorem decode_error_reaches_caller (L : Library)
    (m : RecommendationSystem L) (uid : label) (n : Z) (idx : nat)
    (recs : list (nat * score L)) (i : nat) :
  index_of uid (classes_ (user_encoder m)) = Some idx →
  als_recommend L (model m) idx (item_user_data m) n true = Ok recs →
  i ∈ recs.*1 →
  length (classes_ (item_encoder m)) ≤ i →
  RecommendationSystem.recommend L m uid n = Raise ValueError
  ∧ RecommendationSystem.takes_fallback L m uid n = false.
Proof.
  intros Hi Hr Hin Hout.
  destruct (recommendations_known_Ok L m uid n idx recs Hi Hr) as [Hrec Hfb].
  split; [|done].
  unfold RecommendationSystem.recommend. rewrite Hrec. simpl.
  pose proof (py_mapM_cases (RecommendationSystem.decode_item L m) (recs.*1))
    as Hc.
  destruct (py_mapM (RecommendationSystem.decode_item L m) (recs.*1))
    as [items|e].
  - apply list_elem_of_lookup in Hin as [p Hp].
    destruct (Forall2_lookup_l _ _ _ _ _ Hc Hp) as (v & _ & Hv).
    apply decode_item_Ok, lookup_lt_Some in Hv. lia.
  - destruct Hc as (j & _ & Hj).
    by apply decode_item_Raise in Hj as [-> _].
Qed.

Lemma decode_error_reaches_caller_witness :
  ∃ (m : RecommendationSystem (canned_library (Ok [0; 7]))),
    train_model _ 0 scenario_train = Ok m
    ∧ RecommendationSystem.recommend _ m (LStr "u2") 2 = Raise ValueError
    ∧ RecommendationSystem.takes_fallback _ m (LStr "u2") 2 = false.
Proof.
  eexists. split; [vm_compute; reflexivity|].
  apply (decode_error_reaches_caller (canned_library (Ok [0; 7])) _
           (LStr "u2") 2 1 [(0, ()); (7, ())] 7).
  - reflexivity.
  - reflexivity.
  - cbn. apply elem_of_cons. right. apply elem_of_cons. by left.
  - cbn. lia.
Defined.

(** ** [filter_seen_items] *)

Lemma filter_seen_items_id train test :
  (∀ r, r ∈ test → parent_asin r ∈ parent_asin <$> train) →
  filter_seen_items train test = test.
Proof.
  unfold filter_seen_items. cbv zeta.
  induction test as [|r test IH]; intros H.
  - done.
  - rewrite (filter_cons_True (λ r, parent_asin r ∈ parent_asin <$> train))
      by (apply H, elem_of_cons; by left).
    f_equal. apply IH. intros r' Hr'. apply H, elem_of_cons. by right.
Qed.

(** X13. filter_seen_items keeps the rows of the held-out table whose
    item occurs in the training table, in their order and with their
    multiplicity, and drops the others: the result is a sublist of the
    table, filtering twice changes nothing, a table whose items are all
    seen (the training table itself, for one) is returned unchanged, and
    nothing else is. *)
Theorem filter_seen_items_sublist (train test : DataFrame) :
  filter_seen_items train test `sublist_of` test
  ∧ filter_seen_items train (filter_seen_items train test)
    = filter_seen_items train test
  ∧ filter_seen_items train train = train
  ∧ (filter_seen_items train test = test
     ↔ ∀ r, r ∈ test → parent_asin r ∈ parent_asin <$> train).
Proof.
  split; [|split; [|split]].
  - unfold filter_seen_items. apply sublist_filter.
  - apply filter_seen_items_id.
    intros r Hr. by apply elem_of_filter_seen_items in Hr as [_ ?].
  - apply filter_seen_items_id.
    intros r Hr. apply list_elem_of_fmap. by exists r.
  - split; [|apply filter_seen_items_id].
    intros Heq r Hr. rewrite <- Heq in Hr.
    by apply elem_of_filter_seen_items in Hr as [_ ?].
Qed.

Lemma csr_matrix_coo_bounds data row col M n1 n2 :
  csr_matrix_coo data row col = Ok M →
  0 < n1 → 0 < n2 →
  (∀ c, c ∈ row → c < n1) → (∀ c, c ∈ col → c < n2) →
  (shape M).1 ≤ n1 ∧ (shape M).2 ≤ n2.
Proof.
  intros (_ & _ & _ & Hs & _)%csr_matrix_coo_Ok Hn1 Hn2 Hr Hc.
  rewrite Hs. simpl.
  pose proof (max_list_lt row n1 Hn1 Hr).
  pose proof (max_list_lt col n2 Hn2 Hc). lia.
Qed.

Lemma transform_Ok_bound enc y codes c :
  LabelEncoder.transform enc y = Ok codes → c ∈ codes →
  c < length (classes_ enc).
Proof.
  intros Hf%py_mapM_Forall2 Hc.
  apply list_elem_of_lookup in Hc as [k Hk].
  destruct (Forall2_lookup_r _ _ _ _ _ Hf Hk) as (v & _ & Hv).
  apply encode1_Ok_lookup in Hv. by eapply lookup_lt_Some.
Qed.

Lemma transform_Raise enc y e :
  LabelEncoder.transform enc y = Raise e →
  e = ValueError ∧ ∃ v, v ∈ y ∧ v ∉ classes_ enc.
Proof.
  intros H. unfold LabelEncoder.transform in H.
  pose proof (py_mapM_cases (LabelEncoder.encode1 enc) y) as Hc.
  rewrite H in Hc. destruct Hc as (v & Hv & He).
  unfold LabelEncoder.encode1 in He.
  destruct (index_of v (classes_ enc)) eqn:Hi; [done|].
  injection He as <-. split; [done|]. exists v. split; [done|].
  by apply index_of_None.
Qed.

Lemma transform_Ok_seen enc y codes :
  LabelEncoder.transform enc y = Ok codes →
  Forall (λ v, v ∈ classes_ enc) y.
Proof.
  intros Hf%py_mapM_Forall2. apply Forall_forall. intros v Hv.
  apply list_elem_of_lookup in Hv as [k Hk].
  destruct (Forall2_lookup_l _ _ _ _ _ Hf Hk) as (c & _ & Hc).
  apply encode1_Ok_lookup in Hc. by eapply list_elem_of_lookup_2.
Qed.

(** X14. After the filter, the matrix the evaluator builds can fail only
    on users or on emptiness: for a system fitted on the training table
    and a held-out table passed through filter_seen_items, the item
    encoding never fails; the construction raises (always a ValueError)
    exactly when no row is left or a remaining row has an unseen user, and
    otherwise gives a matrix whose shape, inferred from the largest
    held-out indices, is at most (number of users, number of items). *)
Theorem evaluator_matrix_after_filter (L : Library)
    (self : NewRecommendationSystem) (ambient : Z) (train test : DataFrame)
    (m : RecommendationSystem L) :
  RecommendationSystem.fit L self ambient train = Ok m →
  (∃ items,
     LabelEncoder.transform (item_encoder m)
       (parent_asin <$> filter_seen_items train test) = Ok items)
  ∧ match test_user_item L m (filter_seen_items train test) with
    | Ok T =>
        filter_seen_items train test ≠ []
        ∧ (∀ r, r ∈ filter_seen_items train test →
                user_id r ∈ classes_ (user_encoder m))
        ∧ (shape T).1 ≤ length (classes_ (user_encoder m))
        ∧ (shape T).2 ≤ length (classes_ (item_encoder m))
    | Raise e =>
        e = ValueError
        ∧ (filter_seen_items train test = []
           ∨ ∃ r, r ∈ filter_seen_items train test
                  ∧ user_id r ∉ classes_ (user_encoder m))
    end.
Proof.
  intros Hfit.
  pose proof (fit_inv L self ambient train m Hfit)
    as (_ & _ & _ & Hie & _).
  pose proof (fit_classes _ _ Hie) as Hci.
  set (ft := filter_seen_items train test).
  destruct (transform_total (item_encoder m) (parent_asin <$> ft))
    as [items Hitems].
  { intros v (r & -> & Hr)%list_elem_of_fmap.
    apply elem_of_filter_seen_items in Hr as [_ Hr].
    rewrite Hci. by apply elem_of_np_unique. }
  split; [by exists items|].
  unfold test_user_item. rewrite Hitems.
  destruct (LabelEncoder.transform (user_encoder m) (user_id <$> ft))
    as [users|e] eqn:Hus; simpl.
  - destruct (csr_matrix_coo (rating <$> ft) users items) as [T|e] eqn:HT.
    + pose proof (csr_matrix_coo_Ok _ _ _ _ HT) as (Hne & Hl & _).
      assert (Hft : ft ≠ []).
      { intros Hnil. rewrite Hnil in Hl. by destruct users. }
      split; [done|]. split.
      * intros r Hr.
        pose proof (transform_Ok_seen (user_encoder m)
                      (user_id <$> ft) users Hus) as Hall.
        apply (proj1 (Forall_forall _ _) Hall).
        apply list_elem_of_fmap. by exists r.
      * destruct ft as [|r0 ft']; [done|].
        assert (Hpu : 0 < length (classes_ (user_encoder m))).
        { destruct users as [|u users']; [done|].
          pose proof (transform_Ok_bound _ _ _ u Hus) as Hb.
          assert (u ∈ u :: users') by (apply elem_of_cons; by left).
          specialize (Hb H). lia. }
        assert (Hpi : 0 < length (classes_ (item_encoder m))).
        { destruct items as [|i items'].
          - apply py_mapM_Forall2, Forall2_length in Hitems. done.
          - pose proof (transform_Ok_bound _ _ _ i Hitems) as Hb.
            assert (i ∈ i :: items') by (apply elem_of_cons; by left).
            specialize (Hb H). lia. }
        apply (csr_matrix_coo_bounds _ _ _ _ _ _ HT Hpu Hpi).
        -- intros c. exact (transform_Ok_bound _ _ _ c Hus).
        -- intros c. exact (transform_Ok_bound _ _ _ c Hitems).
    + unfold csr_matrix_coo in HT.
      pose proof (Forall2_length _ _ _ (py_mapM_Forall2 _ _ _ Hus)) as Hlu.
      pose proof (Forall2_length _ _ _ (py_mapM_Forall2 _ _ _ Hitems))
        as Hli.
      rewrite length_fmap in Hlu, Hli.
      rewrite length_fmap in HT.
      rewrite decide_True in HT by (split; congruence).
      destruct ft as [|r0 ft'].
      * destruct users, items; simplify_eq/=. split; [done|by left].
      * destruct users, items; simplify_eq/=.
  - apply transform_Raise in Hus as (-> & v & Hv & Hnv).
    split; [done|]. right.
    apply list_elem_of_fmap in Hv as (r & -> & Hr). by exists r.
Qed.

Lemma evaluator_matrix_after_filter_witness :
  ∃ (m : RecommendationSystem (canned_library (Ok []))),
    train_model _ 0 scenario_train = Ok m
    ∧ (∃ items,
         LabelEncoder.transform (item_encoder m)
           (parent_asin <$> filter_seen_items scenario_train heldout_mixed)
         = Ok items)
    ∧ match test_user_item _ m
              (filter_seen_items scenario_train heldout_mixed) with
      | Ok T =>
          filter_seen_items scenario_train heldout_mixed ≠ []
          ∧ (∀ r, r ∈ filter_seen_items scenario_train heldout_mixed →
                  user_id r ∈ classes_ (user_encoder m))
          ∧ (shape T).1 ≤ length (classes_ (user_encoder m))
          ∧ (shape T).2 ≤ length (classes_ (item_encoder m))
      | Raise e =>
          e = ValueError
          ∧ (filter_seen_items scenario_train heldout_mixed = []
             ∨ ∃ r, r ∈ filter_seen_items scenario_train heldout_mixed
                    ∧ user_id r ∉ classes_ (user_encoder m))
      end.
Proof.
  eexists. split; [vm_compute; reflexivity|].
  apply (evaluator_matrix_after_filter (canned_library (Ok []))
           RecommendationSystem.init_default 0 scenario_train heldout_mixed).
  vm_compute. reflexivity.
Defined.

(** ** [evaluate_model]: errors and the arguments of the metrics *)

(** X15. evaluate_model raises a ValueError, and gives no report,
    whenever some row of the held-out table has a user or an item that the
    fitted encoders have not seen; the unseen item is the case
    filter_seen_items exists for. *)
Theorem evaluate_raises_on_unseen_id (L : Library)
    (m : RecommendationSystem L) (test : DataFrame) (k : Z)
    (r : Interaction) :
  r ∈ test →
  user_id r ∉ classes_ (user_encoder m)
  ∨ parent_asin r ∉ classes_ (item_encoder m) →
  evaluate_model L m test k = Raise ValueError.
Proof.
  intros Hr [Hu|Hi]; [by eapply evaluate_model_unseen_user|].
  unfold evaluate_model, evaluate_inputs, test_user_item.
  destruct (LabelEncoder.transform (user_encoder m) (user_id <$> test))
    as [users|e] eqn:Hus; simpl.
  - rewrite (transform_unseen (item_encoder m) (parent_asin <$> test)
               (parent_asin r)); [done| |done].
    apply list_elem_of_fmap. by exists r.
  - by apply transform_Raise in Hus as [-> _].
Qed.

Lemma evaluate_raises_on_unseen_id_witness :
  ∃ (m : RecommendationSystem (canned_library (Ok []))),
    train_model _ 0 scenario_train = Ok m
    ∧ evaluate_model _ m heldout_mixed 10 = Raise ValueError.
Proof.
  eexists. split; [vm_compute; reflexivity|].
  apply (evaluate_raises_on_unseen_id (canned_library (Ok [])) _
           heldout_mixed 10 (MkInteraction (LStr "u2") (LStr "zz") 1)).
  - apply elem_of_cons. right. apply elem_of_cons. by left.
  - right. cbn. rewrite !not_elem_of_cons. repeat split; try discriminate.
    apply not_elem_of_nil.
Defined.

(** X16. When no row of the held-out table has an item seen in training,
    the filtered table is empty and evaluate_model raises a ValueError on
    it (no shape can be inferred for the held-out matrix) instead of
    reporting metrics over no users. *)
Theorem evaluate_raises_on_nothing_left (L : Library)
    (m : RecommendationSystem L) (train test : DataFrame) (k : Z) :
  (∀ r, r ∈ test → parent_asin r ∉ parent_asin <$> train) →
  filter_seen_items train test = []
  ∧ evaluate_model L m (filter_seen_items train test) k = Raise ValueError.
Proof.
  intros Hno.
  assert (Hnil : filter_seen_items train test = []).
  { destruct (filter_seen_items train test) as [|r l] eqn:Hf; [done|].
    assert (Hr : r ∈ filter_seen_items train test)
      by (rewrite Hf; apply elem_of_cons; by left).
    apply elem_of_filter_seen_items in Hr as [Hr Hs].
    by destruct (Hno r Hr). }
  split; [done|]. rewrite Hnil. reflexivity.
Qed.

Lemma evaluate_raises_on_nothing_left_witness :
  filter_seen_items scenario_train
    [MkInteraction (LStr "u2") (LStr "zz") 1] = []
  ∧ evaluate_model (canned_library (Ok []))
      (@MkRS (canned_library (Ok []))
         (AlternatingLeastSquares 100 (1 # 100)%Q 1%Q 50 None) ()
         (MkLabelEncoder [LStr "u1"]) (MkLabelEncoder [LStr "a"])
         (MkCsr (1, 1) ∅) ())
      (filter_seen_items scenario_train
         [MkInteraction (LStr "u2") (LStr "zz") 1]) 10
    = Raise ValueError.
Proof.
  apply evaluate_raises_on_nothing_left.
  intros r Hr. apply list_elem_of_singleton in Hr as ->. cbn.
  rewrite !not_elem_of_cons. repeat split; try discriminate.
  apply not_elem_of_nil.
Defined.

Lemma elem_of_first_seen seen l v :
  v ∈ first_seen seen l ↔ v ∈ l ∧ v ∉ seen.
Proof.
  revert seen. induction l as [|x l IH]; intros seen; simpl.
  - rewrite !elem_of_nil. tauto.
  - case_decide as Hx.
    + rewrite IH, elem_of_cons. split; [tauto|].
      intros [[->|?] ?]; [done|tauto].
    + rewrite !elem_of_cons, IH, elem_of_cons.
      destruct (decide (v = x)) as [->|Hvx]; tauto.
Qed.

Lemma first_seen_NoDup seen l : NoDup (first_seen seen l).
Proof.
  revert seen. induction l as [|x l IH]; intros seen; simpl.
  - constructor.
  - case_decide as Hx; [apply IH|]. constructor; [|apply IH].
    rewrite elem_of_first_seen, elem_of_cons. tauto.
Qed.

Lemma csr_matrix_coo_total data row col :
  length row = length data → length col = length data → data ≠ [] →
  ∃ M, csr_matrix_coo data row col = Ok M.
Proof.
  intros Hr Hc Hd. unfold csr_matrix_coo. rewrite decide_True by done.
  destruct data, row, col; simplify_eq/=. by eexists.
Qed.

Lemma test_user_item_total L (m : RecommendationSystem L) test :
  test ≠ [] →
  (∀ r, r ∈ test →
        user_id r ∈ classes_ (user_encoder m)
        ∧ parent_asin r ∈ classes_ (item_encoder m)) →
  ∃ T, test_user_item L m test = Ok T.
Proof.
  intros Hne Hvoc.
  destruct (transform_total (user_encoder m) (user_id <$> test))
    as [users Hu].
  { intros v (r & -> & Hr)%list_elem_of_fmap. by apply Hvoc. }
  destruct (transform_total (item_encoder m) (parent_asin <$> test))
    as [items Hi].
  { intros v (r & -> & Hr)%list_elem_of_fmap. by apply Hvoc. }
  unfold test_user_item. rewrite Hu, Hi. simpl.
  pose proof (Forall2_length _ _ _ (py_mapM_Forall2 _ _ _ Hu)) as Hlu.
  pose proof (Forall2_length _ _ _ (py_mapM_Forall2 _ _ _ Hi)) as Hli.
  rewrite length_fmap in Hlu, Hli.
  apply csr_matrix_coo_total; rewrite ?length_fmap; [done|done|].
  by destruct test.
Qed.

(** X17. evaluate_model indexes the rows of the item-by-user training
    matrix with a user index.  On a held-out table whose ids are all known,
    if the index of the user of the first row is not below the number of
    training items, the call raises an IndexError and gives no report,
    whatever the engine. *)
Theorem evaluate_user_index_out_of_item_rows (L : Library)
    (self : NewRecommendationSystem) (ambient : Z) (train : DataFrame)
    (m : RecommendationSystem L) (r0 : Interaction) (rest : DataFrame)
    (k : Z) (j : nat) :
  RecommendationSystem.fit L self ambient train = Ok m →
  (∀ r, r ∈ r0 :: rest →
        user_id r ∈ classes_ (user_encoder m)
        ∧ parent_asin r ∈ classes_ (item_encoder m)) →
  index_of (user_id r0) (classes_ (user_encoder m)) = Some j →
  length (classes_ (item_encoder m)) ≤ j →
  evaluate_model L m (r0 :: rest) k = Raise IndexError.
Proof.
  intros Hfit Hvoc Hj Hout.
  pose proof (fit_shape L self ambient train m Hfit) as Hshape.
  destruct (test_user_item_total L m (r0 :: rest)) as [T HT];
    [done|done|].
  assert (Hpd : pd_unique (user_id <$> r0 :: rest)
                = user_id r0 :: first_seen [user_id r0] (user_id <$> rest)).
  { unfold pd_unique. rewrite fmap_cons. cbn [first_seen].
    destruct (decide (user_id r0 ∈ [])) as [Hnil|_]; [|done].
    by apply elem_of_nil in Hnil. }
  unfold evaluate_model, evaluate_inputs. rewrite HT, Hpd.
  destruct (transform_total (user_encoder m)
              (user_id r0 :: first_seen [user_id r0] (user_id <$> rest)))
    as [uidxs Hu].
  { intros v [->|Hv]%elem_of_cons.
    - apply Hvoc, elem_of_cons. by left.
    - apply elem_of_first_seen in Hv as [Hv _].
      apply list_elem_of_fmap in Hv as (r & -> & Hr).
      apply Hvoc, elem_of_cons. by right. }
  assert (Hfirst : recommend_for_eval L m k (user_id r0) = Raise IndexError).
  { unfold recommend_for_eval, LabelEncoder.transform,
      LabelEncoder.encode1.
    cbn [py_mapM]. rewrite Hj. simpl. unfold csr_getrow.
    rewrite decide_False; [done|]. rewrite Hshape. simpl. lia. }
  rewrite Hu. cbn [mbind pyresult_bind py_mapM]. by rewrite Hfirst.
Qed.

Lemma evaluate_user_index_out_of_item_rows_witness :
  ∃ (m : RecommendationSystem (canned_library (Ok [0]))),
    train_model _ 0 two_users_one_item = Ok m
    ∧ evaluate_model _ m [MkInteraction (LStr "u2") (LStr "a") 4] 10
      = Raise IndexError.
Proof.
  eexists. split; [vm_compute; reflexivity|].
  apply (evaluate_user_index_out_of_item_rows (canned_library (Ok [0]))
           RecommendationSystem.init_default 0 two_users_one_item _
           (MkInteraction (LStr "u2") (LStr "a") 4) [] 10 1).
  - vm_compute. reflexivity.
  - intros r Hr. apply list_elem_of_singleton in Hr as ->. cbn. split.
    + apply elem_of_cons. right. apply elem_of_cons. by left.
    + apply elem_of_cons. by left.
  - reflexivity.
  - cbn. lia.
Defined.

Lemma encode_NoDup (cl : list label) (us : list label) (cs : list nat) :
  NoDup us → Forall2 (λ u c, cl !! c = Some u) us cs → NoDup cs.
Proof.
  intros Hnd Hf. induction Hf as [|u c us cs Huc Hf IH].
  - constructor.
  - apply NoDup_cons in Hnd as [Hu Hnd]. constructor; [|by apply IH].
    intros Hc. apply list_elem_of_lookup in Hc as [p Hp].
    destruct (Forall2_lookup_r _ _ _ _ _ Hf Hp) as (u' & Hu' & Hl).
    assert (u' = u) as -> by congruence.
    apply Hu. by eapply list_elem_of_lookup_2.
Qed.



(** X19. The first item of a cold-start list is one of largest row sum:
    for a user absent from the fitted user encoder and n >= 1, recommend
    returns a non-empty list whose first item is the item of a row of the
    training matrix whose sum is at least the sum of every row. *)
Theorem cold_start_head_largest_row_sum (L : Library)
    (self : NewRecommendationSystem) (ambient : Z) (train : DataFrame)
    (m : RecommendationSystem L) (uid : label) (n : Z) :
  RecommendationSystem.fit L self ambient train = Ok m →
  uid ∉ classes_ (user_encoder m) →
  (1 ≤ n)%Z →
  ∃ (i0 : nat) (it : label) (rest : list label),
    RecommendationSystem.recommend L m uid n = Ok (it :: rest)
    ∧ classes_ (item_encoder m) !! i0 = Some it
    ∧ ∀ j, j < length (classes_ (item_encoder m)) →
           (row_sum (item_user_data m) j
            ≤ row_sum (item_user_data m) i0)%Z.
Proof.
  intros Hfit Hu Hn.
  pose proof (fit_shape L self ambient train m Hfit) as Hshape.
  pose proof (fit_inv L self ambient train m Hfit)
    as (_ & _ & _ & Hie & _).
  pose proof (fit_classes _ _ Hie) as Hcl.
  assert (Hpos : 0 < length (classes_ (item_encoder m))).
  { destruct train as [|r train]; [discriminate Hfit|].
    assert (Hr : parent_asin r ∈ classes_ (item_encoder m)).
    { rewrite Hcl. apply elem_of_np_unique.
      rewrite fmap_cons. apply elem_of_cons. by left. }
    destruct (classes_ (item_encoder m));
      [by apply elem_of_nil in Hr|simpl; lia]. }
  set (cl := classes_ (item_encoder m)) in *.
  pose proof (popularity_ranking_perm (item_user_data m)) as Hperm.
  pose proof (popularity_ranking_sorted (item_user_data m)) as Hsorted.
  rewrite Hshape in Hperm. cbn [fst] in Hperm.
  destruct (popularity_ranking (item_user_data m)) as [|i0 rk] eqn:Hrk.
  { exfalso. apply Permutation_nil_l in Hperm.
    destruct (length cl); [lia|done]. }
  assert (Hi0 : i0 < length cl).
  { assert (H0 : i0 ∈ seq 0 (length cl))
      by (rewrite <- Hperm; apply elem_of_cons; by left).
    apply elem_of_seq in H0. lia. }
  destruct (lookup_lt_is_Some_2 cl i0 Hi0) as [it Hit].
  destruct (py_mapM_total (RecommendationSystem.decode_item L m)
              (take (Z.to_nat n - 1) rk)) as [rest Hrest].
  { intros i Hi. apply subseteq_take in Hi.
    assert (H0 : i ∈ seq 0 (length cl))
      by (rewrite <- Hperm; apply elem_of_cons; by right).
    apply elem_of_seq in H0.
    destruct (lookup_lt_is_Some_2 cl i) as [v Hv]; [lia|].
    exists v. by apply decode_item_Ok. }
  exists i0, it, rest. split; [|split; [done|]].
  - unfold RecommendationSystem.recommend.
    rewrite (recommendations_unseen L m uid n Hu). simpl.
    rewrite popularity_fallback_nonneg by lia. rewrite Hrk.
    replace (Z.to_nat n) with (S (Z.to_nat n - 1)) by lia.
    cbn [take py_mapM].
    rewrite (proj2 (decode_item_Ok L m i0 it) Hit). simpl.
    by rewrite Hrest.
  - intros j Hj.
    assert (Hjr : j ∈ i0 :: rk).
    { rewrite Hperm. apply elem_of_seq. lia. }
    apply StronglySorted_inv in Hsorted as [_ Hall].
    apply elem_of_cons in Hjr as [->|Hjr]; [lia|].
    apply (proj1 (Forall_forall _ _) Hall) in Hjr.
    unfold more_popular in Hjr. lia.
Qed.

Lemma cold_start_head_largest_row_sum_witness :
  ∃ (m : RecommendationSystem (canned_library (Ok []))),
    train_model _ 0 scenario_train = Ok m
    ∧ ∃ (i0 : nat) (it : label) (rest : list label),
        RecommendationSystem.recommend _ m (LStr "new_user") 2
        = Ok (it :: rest)
        ∧ classes_ (item_encoder m) !! i0 = Some it
        ∧ ∀ j, j < length (classes_ (item_encoder m)) →
               (row_sum (item_user_data m) j
                ≤ row_sum (item_user_data m) i0)%Z.
Proof.
  eexists. split; [vm_compute; reflexivity|].
  apply (cold_start_head_largest_row_sum (canned_library (Ok []))
           RecommendationSystem.init_default 0 scenario_train _
           (LStr "new_user") 2).
  - vm_compute. reflexivity.
  - cbn. rewrite !not_elem_of_cons. repeat split; try discriminate.
    apply not_elem_of_nil.
  - lia.
Defined.

(** ** [main] *)

(** X20. main evaluates only on the first 1000 rows of the validation and
    of the test table: rows after them never change its outcome.  It
    stops with a ValueError, printing no report, as soon as one of the
    first 1000 validation rows has an item seen in training and a user
    that training has not seen. *)
Theorem main_run_first_thousand (L : Library) (ambient : Z)
    (train valid test : DataFrame) :
  (∀ more_valid more_test,
     length valid = 1000 → length test = 1000 →
     main_run L ambient train (valid ++ more_valid) (test ++ more_test)
     = main_run L ambient train valid test)
  ∧ (∀ (m : RecommendationSystem L) (r : Interaction),
       train_model L ambient train = Ok m →
       r ∈ take 1000 valid →
       parent_asin r ∈ parent_asin <$> train →
       user_id r ∉ user_id <$> train →
       main_run L ambient train valid test = Raise ValueError).
Proof.
  split.
  - intros mv mt Hv Ht. unfold main_run.
    rewrite (take_app_length' valid mv 1000) by done.
    rewrite (take_app_length' test mt 1000) by done.
    rewrite (take_ge valid 1000) by (by rewrite Hv).
    by rewrite (take_ge test 1000) by (by rewrite Ht).
  - intros m r Hm Hr Hseen Hunseen. unfold main_run. rewrite Hm. simpl.
    rewrite (evaluate_model_unseen_user L m
               (filter_seen_items train (take 1000 valid)) 10 r).
    + done.
    + by apply elem_of_filter_seen_items.
    + unfold train_model in Hm.
      apply fit_inv in Hm as (_ & _ & Hue & _).
      rewrite (fit_classes _ _ Hue). by rewrite elem_of_np_unique.
Qed.
